(** * blog-app-be: ownership, integrity and view properties of the handlers

    A shallow embedding of the request handlers of the blog backend
    (src/routes/auth.py, users.py, posts.py, comments.py) over an explicit
    model of the three tables declared in src/database/models.py.

    - A table is the list of its rows in insertion order.
    - A handler is a computation in a state-and-exception monad over the
      database: it returns the database it leaves behind together with
      either the response or the HTTP error that the client receives.
    - What the environment draws for a handler (the uuid4 string, the
      reading of the UTC clock, the salt of the password hash) is an
      explicit argument of the handler.
    - Timestamps are integers (seconds since the epoch).  Each reading of
      the clock is an argument of its own: an insert reads the clock once
      for every timestamp column with a [default=datetime.utcnow], and the
      token is stamped with a reading that [register] or [login] takes
      after that.
    - A handler receives a body that passed the schema's validation.
    - [db.refresh(row)] after a commit reloads the row that was just
      written: the handlers below go on with that row. *)

From Stdlib Require Import String List ZArith Bool Lia Permutation Sorted.
Import ListNotations.

Local Open Scope string_scope.
Local Open Scope Z_scope.
Local Open Scope list_scope.

(* ===================================================================== *)
(** ** Database rows (src/database/models.py) *)
(* ===================================================================== *)

(** Modelled from the spec: the format of a password hash is fixed by
    src/middleware/auth.py, which is not among the sources.  The value of
    the [password] column is the hash; it embeds the salt it was computed
    with next to the digest, and the two parts are kept apart here instead
    of being concatenated into one string. *)
Record PasswordHash := mkPasswordHash {
  salt : string;
  digest_of : string
}.

Module User.
Record t := mk {
    id : string;
    email : string;
    password : PasswordHash;
    name : string;
    profile_picture : option string;
    created_at : Z
  }.
End User.

Module Post.
Record t := mk {
    id : string;
    title : string;
    content : string;
    excerpt : option string;
    category : option string;
    author_id : string;
    created_at : Z;
    updated_at : Z
  }.
End Post.

Module Comment.
Record t := mk {
    id : string;
    content : string;
    post_id : string;
    author_id : string;
    created_at : Z;
    updated_at : Z
  }.
End Comment.

(** The session's view of the database: the three tables. *)
Record Database := mkDatabase {
  users : list User.t;
  posts : list Post.t;
  comments : list Comment.t
}.

Definition empty_db : Database := mkDatabase [] [] [].

(* ===================================================================== *)
(** ** Request and response schemas (src/database/schemas.py) *)
(* ===================================================================== *)

Module UserCreate.
Record t := mk { email : string; name : string; password : string }.
End UserCreate.

Module UserLogin.
Record t := mk { email : string; password : string }.
End UserLogin.

Module UserUpdate.
Record t := mk { name : option string; profile_picture : option string }.
End UserUpdate.

Module UserResponse.
Record t := mk {
    email : string;
    name : string;
    id : string;
    profile_picture : option string;
    created_at : Z
  }.
End UserResponse.

(** Modelled from the spec: the token format is fixed by
    src/middleware/auth.py, which is not among the sources.  A signed
    access token is its payload (subject and expiration claim) and the
    signature over it. *)
Record AccessToken := mkAccessToken {
  sub : string;
  exp : Z;
  signature : string
}.

Module Token.
Record t := mk {
    access_token : AccessToken;
    token_type : string;
    user : UserResponse.t
  }.
End Token.

Module PostCreate.
Record t := mk {
    title : string;
    content : string;
    excerpt : option string;
    category : option string
  }.
End PostCreate.

(** [None] is Python's [None]: the field was left out of the request body
    or sent as JSON null. *)
Module PostUpdate.
Record t := mk {
    title : option string;
    content : option string;
    excerpt : option string;
    category : option string
  }.
End PostUpdate.

Module PostResponse.
Record t := mk {
    title : string;
    content : string;
    excerpt : option string;
    category : option string;
    id : string;
    author_id : string;
    author_name : string;
    author_profile_picture : option string;
    created_at : Z;
    updated_at : Z
  }.
End PostResponse.

Module CommentCreate.
Record t := mk { content : string }.
End CommentCreate.

Module CommentUpdate.
Record t := mk { content : string }.
End CommentUpdate.

Module CommentResponse.
Record t := mk {
    content : string;
    id : string;
    post_id : string;
    author_id : string;
    author_name : string;
    author_profile_picture : option string;
    created_at : Z;
    updated_at : Z
  }.
End CommentResponse.

Module MessageResponse.
Record t := mk { message : string }.
End MessageResponse.

(* ===================================================================== *)
(** ** Errors *)
(* ===================================================================== *)

Record HTTPException := mkHTTPException {
  status_code : Z;
  detail : string
}.

Definition HTTP_400_BAD_REQUEST : Z := 400.
Definition HTTP_401_UNAUTHORIZED : Z := 401.
Definition HTTP_403_FORBIDDEN : Z := 403.
Definition HTTP_404_NOT_FOUND : Z := 404.
Definition HTTP_500_INTERNAL_SERVER_ERROR : Z := 500.

(** What [general_exception_handler] of main.py answers for any exception
    that is not an [HTTPException] (a violated table constraint, an
    attribute read on [None]). *)
Definition internal_server_error : HTTPException :=
  mkHTTPException HTTP_500_INTERNAL_SERVER_ERROR "Internal server error".

(* ===================================================================== *)
(** ** The handler monad: database state plus exceptions *)
(* ===================================================================== *)

Inductive Result (A : Type) : Type :=
| Ok (a : A)
| Raise (e : HTTPException).
Arguments Ok {A} a.
Arguments Raise {A} e.

Definition M (A : Type) : Type := Database -> Database * Result A.

Definition ret {A} (a : A) : M A := fun db => (db, Ok a).

Definition raise {A} (e : HTTPException) : M A := fun db => (db, Raise e).

Definition bind {A B} (c : M A) (k : A -> M B) : M B :=
  fun db =>
    match c db with
    | (db', Ok a) => k a db'
    | (db', Raise e) => (db', Raise e)
    end.

Notation "x <- c1 ;; c2" := (bind c1 (fun x => c2))
  (at level 61, c1 at next level, right associativity).
Notation "c1 ;; c2" := (bind c1 (fun _ => c2))
  (at level 61, right associativity).

(** The database a handler leaves behind, and what it answers. *)
Definition db_after {A} (c : M A) (db : Database) : Database := fst (c db).
Definition answer {A} (c : M A) (db : Database) : Result A := snd (c db).

(* ===================================================================== *)
(** ** Queries and writes of the session *)
(* ===================================================================== *)

(** [db.query(T).filter(cond).first()] *)
Definition first {A} (cond : A -> bool) (rows : list A) : option A :=
  find cond rows.

Definition query_user_by_email (e : string) : M (option User.t) :=
  fun db => (db, Ok (first (fun u => String.eqb (User.email u) e) (users db))).

Definition query_user_by_id (i : string) : M (option User.t) :=
  fun db => (db, Ok (first (fun u => String.eqb (User.id u) i) (users db))).

Definition query_post_by_id (i : string) : M (option Post.t) :=
  fun db => (db, Ok (first (fun p => String.eqb (Post.id p) i) (posts db))).

Definition query_comment_by_id (i : string) : M (option Comment.t) :=
  fun db => (db, Ok (first (fun c => String.eqb (Comment.id c) i) (comments db))).

(** [order_by(created_at.desc())]: insertion sort on a timestamp key,
    largest first; rows with equal keys keep their table order. *)
Fixpoint insert_desc {A} (key : A -> Z) (x : A) (l : list A) : list A :=
  match l with
  | [] => [x]
  | y :: l' => if key y <=? key x then x :: y :: l' else y :: insert_desc key x l'
  end.

Definition order_by_desc {A} (key : A -> Z) (l : list A) : list A :=
  fold_right (insert_desc key) [] l.

(** [db.add(row); db.commit()] on each table.  The primary key, and for
    users the [unique=True] email column, are checked by the database: a
    violation aborts the commit with an exception the handler does not
    catch.  Foreign keys are not checked (the engine is not part of the
    sources, and not every engine enforces them). *)
Definition add_user (u : User.t) : M unit :=
  fun db =>
    if existsb (fun r => String.eqb (User.id r) (User.id u)) (users db)
       || existsb (fun r => String.eqb (User.email r) (User.email u)) (users db)
    then (db, Raise internal_server_error)
    else (mkDatabase (users db ++ [u]) (posts db) (comments db), Ok tt).

Definition add_post (p : Post.t) : M unit :=
  fun db =>
    if existsb (fun r => String.eqb (Post.id r) (Post.id p)) (posts db)
    then (db, Raise internal_server_error)
    else (mkDatabase (users db) (posts db ++ [p]) (comments db), Ok tt).

Definition add_comment (c : Comment.t) : M unit :=
  fun db =>
    if existsb (fun r => String.eqb (Comment.id r) (Comment.id c)) (comments db)
    then (db, Raise internal_server_error)
    else (mkDatabase (users db) (posts db) (comments db ++ [c]), Ok tt).

(** Commit of attribute assignments on a loaded row: an UPDATE of the
    assigned columns on the rows carrying the row's primary key. *)
Definition update_where {A} (cond : A -> bool) (set : A -> A) (rows : list A) : list A :=
  map (fun r => if cond r then set r else r) rows.

Definition commit_user (pk : string) (set : User.t -> User.t) : M unit :=
  fun db =>
    (mkDatabase (update_where (fun r => String.eqb (User.id r) pk) set (users db))
                (posts db) (comments db), Ok tt).

Definition commit_post (pk : string) (set : Post.t -> Post.t) : M unit :=
  fun db =>
    (mkDatabase (users db)
                (update_where (fun r => String.eqb (Post.id r) pk) set (posts db))
                (comments db), Ok tt).

Definition commit_comment (pk : string) (set : Comment.t -> Comment.t) : M unit :=
  fun db =>
    (mkDatabase (users db) (posts db)
                (update_where (fun r => String.eqb (Comment.id r) pk) set (comments db)),
     Ok tt).

(** [db.delete(comment); db.commit()]: a DELETE by primary key. *)
Definition delete_comment_rows (pks : list string) (rows : list Comment.t) : list Comment.t :=
  filter (fun r => negb (existsb (String.eqb (Comment.id r)) pks)) rows.

Definition db_delete_comment (c : Comment.t) : M unit :=
  fun db =>
    (mkDatabase (users db) (posts db) (delete_comment_rows [Comment.id c] (comments db)),
     Ok tt).

(** The [Post.comments] relationship: the comments whose [post_id] is the
    post's primary key. *)
Definition post_comments (p : Post.t) (db : Database) : list Comment.t :=
  filter (fun c => String.eqb (Comment.post_id c) (Post.id p)) (comments db).

(** [db.delete(post); db.commit()].  [Post.comments] is declared with
    [cascade="all, delete-orphan"]: the session loads the post's comments
    and deletes each of them by primary key, then deletes the post row. *)
Definition db_delete_post (p : Post.t) : M unit :=
  fun db =>
    (mkDatabase (users db)
                (filter (fun r => negb (String.eqb (Post.id r) (Post.id p))) (posts db))
                (delete_comment_rows (map Comment.id (post_comments p db)) (comments db)),
     Ok tt).

(** The [author] relationship of a post or a comment, followed by an
    attribute read: the user row whose primary key is the author id.  When
    there is none the relationship is [None] and the attribute read raises. *)
Definition load_author (author_id : string) : M User.t :=
  a <- query_user_by_id author_id ;;
  match a with
  | Some u => ret u
  | None => raise internal_server_error
  end.

Fixpoint map_M {A B} (f : A -> M B) (l : list A) : M (list B) :=
  match l with
  | [] => ret []
  | x :: l' =>
      y <- f x ;;
      ys <- map_M f l' ;;
      ret (y :: ys)
  end.

(* ===================================================================== *)
(** ** Configuration (src/config/settings.py) *)
(* ===================================================================== *)

Module Settings.
Record t := mk {
    SECRET_KEY : string;
    ALGORITHM : string;
    ACCESS_TOKEN_EXPIRE_MINUTES : Z
  }.
End Settings.

(** The defaults of the settings class; the secret has none and comes from
    the environment. *)
Definition default_settings (secret : string) : Settings.t :=
  Settings.mk secret "HS256" 1440.

(* ===================================================================== *)
(** ** Credential service and authorization guard *)
(* ===================================================================== *)

(** Modelled from the spec: the two keyed one-way functions the credential
    service is built on come with src/middleware/auth.py, which is not
    among the sources.  The specification does not fix their algorithms, so
    they are taken as an interface: [digest s p] is the password digest
    under salt [s], [sign alg key subject expiry] the signature of a token
    payload. *)
Class Primitives := {
  digest : string -> string -> string;
  sign : string -> string -> string -> Z -> string
}.

(** Modelled from the spec: src/middleware/auth.py is not among the sources.
    [get_password_hash] is the spec's [hash]: a deterministic transform of
    the password under a salt drawn per call, the salt embedded in the
    output. *)
Definition get_password_hash `{Primitives} (salt : string) (password : string)
  : PasswordHash :=
  mkPasswordHash salt (digest salt password).

(** Modelled from the spec: src/middleware/auth.py is not among the sources.
    [verify_password] is the spec's [verify]: true iff the password matches
    the hash, that is, iff hashing it under the embedded salt gives the
    embedded digest. *)
Definition verify_password `{Primitives} (plain_password : string)
  (hashed_password : PasswordHash) : bool :=
  String.eqb (digest (salt hashed_password) plain_password)
             (digest_of hashed_password).

(** Modelled from the spec: src/middleware/auth.py is not among the sources.
    [create_access_token] is the spec's [issue_token]: a signed token that
    encodes the subject and an expiration set to now plus the configured
    number of minutes, signed with the configured secret. *)
Definition create_access_token `{Primitives} (settings : Settings.t) (now : Z)
  (subject : string) : AccessToken :=
  let expire := now + 60 * Settings.ACCESS_TOKEN_EXPIRE_MINUTES settings in
  mkAccessToken subject expire
    (sign (Settings.ALGORITHM settings) (Settings.SECRET_KEY settings) subject expire).

(** Modelled from the spec: what [verify_token] returns, the subject or the
    [InvalidToken] failure. *)
Inductive TokenCheck :=
| Subject (subject_id : string)
| InvalidToken.

(** Modelled from the spec: src/middleware/auth.py is not among the sources.
    [verify_token] fails with [InvalidToken] when the signature is not the
    one of the payload under the configured secret or when the expiration
    has passed, and otherwise returns the encoded subject.  (A malformed
    token is a string that does not parse to an [AccessToken].) *)
Definition verify_token `{Primitives} (settings : Settings.t) (now : Z)
  (token : AccessToken) : TokenCheck :=
  if negb (String.eqb (signature token)
             (sign (Settings.ALGORITHM settings) (Settings.SECRET_KEY settings)
                   (sub token) (exp token)))
  then InvalidToken
  else if exp token <=? now then InvalidToken
  else Subject (sub token).

(** Modelled from the spec: the guard's failure is a 401; the text of its
    detail is not given. *)
Definition unauthenticated : HTTPException :=
  mkHTTPException HTTP_401_UNAUTHORIZED "Could not validate credentials".

(** Modelled from the spec: src/middleware/dependencies.py is not among the
    sources.  [get_current_user] is the authorization guard: no bearer
    token, a token that [verify_token] rejects, or a subject with no user
    row all fail with 401; otherwise the user row is returned. *)
Definition get_current_user `{Primitives} (settings : Settings.t) (now : Z)
  (authorization : option AccessToken) : M User.t :=
  match authorization with
  | None => raise unauthenticated
  | Some token =>
      match verify_token settings now token with
      | InvalidToken => raise unauthenticated
      | Subject user_id =>
          user <- query_user_by_id user_id ;;
          match user with
          | None => raise unauthenticated
          | Some user => ret user
          end
      end
  end.

(* ===================================================================== *)
(** ** src/routes/auth.py *)
(* ===================================================================== *)

Definition user_response (u : User.t) : UserResponse.t :=
  UserResponse.mk (User.email u) (User.name u) (User.id u)
                  (User.profile_picture u) (User.created_at u).

(** [created] is the clock reading of the insert (the default of
    [User.created_at]); [now] is the later reading that stamps the token. *)
Definition register `{Primitives} (settings : Settings.t)
  (user_id salt : string) (created now : Z) (user_data : UserCreate.t) : M Token.t :=
  existing_user <- query_user_by_email (UserCreate.email user_data) ;;
  match existing_user with
  | Some _ =>
      raise (mkHTTPException HTTP_400_BAD_REQUEST "Email already registered")
  | None =>
      let hashed_password := get_password_hash salt (UserCreate.password user_data) in
      let new_user :=
        User.mk user_id (UserCreate.email user_data) hashed_password
                (UserCreate.name user_data) None created in
      add_user new_user ;;
      let access_token := create_access_token settings now (User.id new_user) in
      ret (Token.mk access_token "bearer" (user_response new_user))
  end.

Definition login `{Primitives} (settings : Settings.t) (now : Z)
  (credentials : UserLogin.t) : M Token.t :=
  user <- query_user_by_email (UserLogin.email credentials) ;;
  match user with
  | None =>
      raise (mkHTTPException HTTP_401_UNAUTHORIZED "Invalid email or password")
  | Some user =>
      if negb (verify_password (UserLogin.password credentials) (User.password user))
      then raise (mkHTTPException HTTP_401_UNAUTHORIZED "Invalid email or password")
      else
        let access_token := create_access_token settings now (User.id user) in
        ret (Token.mk access_token "bearer" (user_response user))
  end.

Definition logout : M MessageResponse.t :=
  ret (MessageResponse.mk "Successfully logged out").

(* ===================================================================== *)
(** ** src/routes/users.py *)
(* ===================================================================== *)

Definition get_current_user_profile (current_user : User.t) : M UserResponse.t :=
  ret (user_response current_user).

Definition set_name (v : string) (u : User.t) : User.t :=
  User.mk (User.id u) (User.email u) (User.password u) v
          (User.profile_picture u) (User.created_at u).

Definition set_profile_picture (v : string) (u : User.t) : User.t :=
  User.mk (User.id u) (User.email u) (User.password u) (User.name u)
          (Some v) (User.created_at u).

Definition assign_user_fields (user_data : UserUpdate.t) (u : User.t) : User.t :=
  let u := match UserUpdate.name user_data with
           | Some v => set_name v u
           | None => u
           end in
  match UserUpdate.profile_picture user_data with
  | Some v => set_profile_picture v u
  | None => u
  end.

Definition update_user_profile (user_data : UserUpdate.t) (current_user : User.t)
  : M UserResponse.t :=
  commit_user (User.id current_user) (assign_user_fields user_data) ;;
  ret (user_response (assign_user_fields user_data current_user)).

(** A [PostResponse(...)] as every post handler builds it: the stored
    columns and [author_name]; [author_profile_picture] is not passed and
    takes the schema's default. *)
Definition post_response (post : Post.t) (author_name : string) : PostResponse.t :=
  PostResponse.mk (Post.title post) (Post.content post) (Post.excerpt post)
                  (Post.category post) (Post.id post) (Post.author_id post)
                  author_name None (Post.created_at post) (Post.updated_at post).

Definition get_user_posts (current_user : User.t) : M (list PostResponse.t) :=
  fun db =>
    let posts :=
      order_by_desc Post.created_at
        (filter (fun p => String.eqb (Post.author_id p) (User.id current_user))
                (posts db)) in
    (db, Ok (map (fun post => post_response post (User.name current_user)) posts)).

(* ===================================================================== *)
(** ** src/routes/posts.py *)
(* ===================================================================== *)

Definition post_not_found : HTTPException :=
  mkHTTPException HTTP_404_NOT_FOUND "Post not found".

(** [created] and [updated] are the two clock readings of the insert:
    [Post.created_at] and [Post.updated_at] each have a
    [default=datetime.utcnow] of their own. *)
Definition create_post (post_id : string) (created updated : Z)
  (post_data : PostCreate.t) (current_user : User.t) : M PostResponse.t :=
  let new_post :=
    Post.mk post_id (PostCreate.title post_data) (PostCreate.content post_data)
            (PostCreate.excerpt post_data) (PostCreate.category post_data)
            (User.id current_user) created updated in
  add_post new_post ;;
  ret (post_response new_post (User.name current_user)).

Definition get_all_posts : M (list PostResponse.t) :=
  fun db =>
    let posts := order_by_desc Post.created_at (posts db) in
    map_M (fun post =>
             author <- load_author (Post.author_id post) ;;
             ret (post_response post (User.name author)))
          posts db.

Definition get_post_by_id (post_id : string) : M PostResponse.t :=
  post <- query_post_by_id post_id ;;
  match post with
  | None => raise post_not_found
  | Some post =>
      author <- load_author (Post.author_id post) ;;
      ret (post_response post (User.name author))
  end.

Definition set_title (v : string) (p : Post.t) : Post.t :=
  Post.mk (Post.id p) v (Post.content p) (Post.excerpt p) (Post.category p)
          (Post.author_id p) (Post.created_at p) (Post.updated_at p).

Definition set_content (v : string) (p : Post.t) : Post.t :=
  Post.mk (Post.id p) (Post.title p) v (Post.excerpt p) (Post.category p)
          (Post.author_id p) (Post.created_at p) (Post.updated_at p).

Definition set_excerpt (v : string) (p : Post.t) : Post.t :=
  Post.mk (Post.id p) (Post.title p) (Post.content p) (Some v) (Post.category p)
          (Post.author_id p) (Post.created_at p) (Post.updated_at p).

Definition set_category (v : string) (p : Post.t) : Post.t :=
  Post.mk (Post.id p) (Post.title p) (Post.content p) (Post.excerpt p) (Some v)
          (Post.author_id p) (Post.created_at p) (Post.updated_at p).

Definition set_updated_at (v : Z) (p : Post.t) : Post.t :=
  Post.mk (Post.id p) (Post.title p) (Post.content p) (Post.excerpt p)
          (Post.category p) (Post.author_id p) (Post.created_at p) v.

(** The assignments of [update_post] between the ownership check and the
    commit. *)
Definition assign_post_fields (post_data : PostUpdate.t) (now : Z) (post : Post.t)
  : Post.t :=
  let post := match PostUpdate.title post_data with
              | Some v => set_title v post
              | None => post
              end in
  let post := match PostUpdate.content post_data with
              | Some v => set_content v post
              | None => post
              end in
  let post := match PostUpdate.excerpt post_data with
              | Some v => set_excerpt v post
              | None => post
              end in
  let post := match PostUpdate.category post_data with
              | Some v => set_category v post
              | None => post
              end in
  set_updated_at now post.

Definition update_post (now : Z) (post_id : string) (post_data : PostUpdate.t)
  (current_user : User.t) : M PostResponse.t :=
  post <- query_post_by_id post_id ;;
  match post with
  | None => raise post_not_found
  | Some post =>
      if negb (String.eqb (Post.author_id post) (User.id current_user))
      then raise (mkHTTPException HTTP_403_FORBIDDEN
                    "Unauthorized access - only the author can edit this post")
      else
        commit_post (Post.id post) (assign_post_fields post_data now) ;;
        let post := assign_post_fields post_data now post in
        author <- load_author (Post.author_id post) ;;
        ret (post_response post (User.name author))
  end.

Definition delete_post (post_id : string) (current_user : User.t)
  : M MessageResponse.t :=
  post <- query_post_by_id post_id ;;
  match post with
  | None => raise post_not_found
  | Some post =>
      if negb (String.eqb (Post.author_id post) (User.id current_user))
      then raise (mkHTTPException HTTP_403_FORBIDDEN
                    "Unauthorized access - only the author can delete this post")
      else
        db_delete_post post ;;
        ret (MessageResponse.mk "Post successfully deleted")
  end.

(* ===================================================================== *)
(** ** src/routes/comments.py *)
(* ===================================================================== *)

Definition comment_not_found : HTTPException :=
  mkHTTPException HTTP_404_NOT_FOUND "Comment not found".

Definition comment_response (comment : Comment.t) (author : User.t)
  : CommentResponse.t :=
  CommentResponse.mk (Comment.content comment) (Comment.id comment)
                     (Comment.post_id comment) (Comment.author_id comment)
                     (User.name author) (User.profile_picture author)
                     (Comment.created_at comment) (Comment.updated_at comment).

(** [created] and [updated] are the two clock readings of the insert, one
    for each of [Comment.created_at] and [Comment.updated_at]. *)
Definition create_comment (comment_id : string) (created updated : Z)
  (post_id : string) (comment_data : CommentCreate.t) (current_user : User.t)
  : M CommentResponse.t :=
  post <- query_post_by_id post_id ;;
  match post with
  | None => raise post_not_found
  | Some _ =>
      let new_comment :=
        Comment.mk comment_id (CommentCreate.content comment_data) post_id
                   (User.id current_user) created updated in
      add_comment new_comment ;;
      ret (comment_response new_comment current_user)
  end.

Definition get_comments_by_post (post_id : string) : M (list CommentResponse.t) :=
  post <- query_post_by_id post_id ;;
  match post with
  | None => raise post_not_found
  | Some _ =>
      fun db =>
        let comments :=
          order_by_desc Comment.created_at
            (filter (fun c => String.eqb (Comment.post_id c) post_id) (comments db)) in
        map_M (fun comment =>
                 author <- load_author (Comment.author_id comment) ;;
                 ret (comment_response comment author))
              comments db
  end.

Definition assign_comment_fields (comment_data : CommentUpdate.t) (now : Z)
  (c : Comment.t) : Comment.t :=
  Comment.mk (Comment.id c) (CommentUpdate.content comment_data)
             (Comment.post_id c) (Comment.author_id c) (Comment.created_at c) now.

Definition update_comment (now : Z) (comment_id : string)
  (comment_data : CommentUpdate.t) (current_user : User.t) : M CommentResponse.t :=
  comment <- query_comment_by_id comment_id ;;
  match comment with
  | None => raise comment_not_found
  | Some comment =>
      if negb (String.eqb (Comment.author_id comment) (User.id current_user))
      then raise (mkHTTPException HTTP_403_FORBIDDEN
                    "Unauthorized access - only the author can edit this comment")
      else
        commit_comment (Comment.id comment) (assign_comment_fields comment_data now) ;;
        let comment := assign_comment_fields comment_data now comment in
        author <- load_author (Comment.author_id comment) ;;
        ret (comment_response comment author)
  end.

Definition delete_comment (comment_id : string) (current_user : User.t)
  : M MessageResponse.t :=
  comment <- query_comment_by_id comment_id ;;
  match comment with
  | None => raise comment_not_found
  | Some comment =>
      if negb (String.eqb (Comment.author_id comment) (User.id current_user))
      then raise (mkHTTPException HTTP_403_FORBIDDEN
                    "Unauthorized access - only the author can delete this comment")
      else
        db_delete_comment comment ;;
        ret (MessageResponse.mk "Comment successfully deleted")
  end.

(* ===================================================================== *)
(** ** Requests and reachable databases *)
(* ===================================================================== *)

(** The requests that write to the database, each with what the
    environment draws for it.  A protected request carries the user row
    that the authorization guard resolved for it. *)
Inductive Request :=
| Register (user_id salt : string) (created now : Z) (user_data : UserCreate.t)
| UpdateUserProfile (user_data : UserUpdate.t) (current_user : User.t)
| CreatePost (post_id : string) (created updated : Z) (post_data : PostCreate.t)
             (current_user : User.t)
| UpdatePost (now : Z) (post_id : string) (post_data : PostUpdate.t)
             (current_user : User.t)
| DeletePost (post_id : string) (current_user : User.t)
| CreateComment (comment_id : string) (created updated : Z) (post_id : string)
                (comment_data : CommentCreate.t) (current_user : User.t)
| UpdateComment (now : Z) (comment_id : string) (comment_data : CommentUpdate.t)
                (current_user : User.t)
| DeleteComment (comment_id : string) (current_user : User.t).

Definition serve `{Primitives} (settings : Settings.t) (r : Request)
  (db : Database) : Database :=
  match r with
  | Register user_id salt created now user_data =>
      db_after (register settings user_id salt created now user_data) db
  | UpdateUserProfile user_data u => db_after (update_user_profile user_data u) db
  | CreatePost post_id created updated post_data u =>
      db_after (create_post post_id created updated post_data u) db
  | UpdatePost now post_id post_data u =>
      db_after (update_post now post_id post_data u) db
  | DeletePost post_id u => db_after (delete_post post_id u) db
  | CreateComment comment_id created updated post_id comment_data u =>
      db_after (create_comment comment_id created updated post_id comment_data u) db
  | UpdateComment now comment_id comment_data u =>
      db_after (update_comment now comment_id comment_data u) db
  | DeleteComment comment_id u => db_after (delete_comment comment_id u) db
  end.

Definition current_user_of (r : Request) : option User.t :=
  match r with
  | Register _ _ _ _ _ => None
  | UpdateUserProfile _ u | CreatePost _ _ _ _ u | UpdatePost _ _ _ u
  | DeletePost _ u | CreateComment _ _ _ _ _ u | UpdateComment _ _ _ u
  | DeleteComment _ u => Some u
  end.

(** The guard hands a protected handler a row of the users table. *)
Definition authenticated (r : Request) (db : Database) : Prop :=
  match current_user_of r with
  | Some u => In u (users db)
  | None => True
  end.

(** The databases the application can be in: the empty one, and every one
    that serving a request leaves behind. *)
Inductive reachable `{Primitives} (settings : Settings.t) : Database -> Prop :=
| reachable_empty : reachable settings empty_db
| reachable_serve db r :
    reachable settings db -> authenticated r db ->
    reachable settings (serve settings r db).

(* ===================================================================== *)
(** ** Constraints of the schema, as properties of a database *)
(* ===================================================================== *)

(** [Post.author_id] is declared [ForeignKey("users.id")]. *)
Definition posts_have_authors (db : Database) : Prop :=
  forall p, In p (posts db) ->
    exists u, In u (users db) /\ User.id u = Post.author_id p.

(** [Comment.post_id] is declared [ForeignKey("posts.id")]. *)
Definition comments_have_posts (db : Database) : Prop :=
  forall c, In c (comments db) ->
    exists p, In p (posts db) /\ Post.id p = Comment.post_id c.

(** [User.email] is declared [unique=True]. *)
Definition emails_unique (db : Database) : Prop :=
  NoDup (map User.email (users db)).

(** The stored columns a post view carries. *)
Definition post_of_response (r : PostResponse.t) : Post.t :=
  Post.mk (PostResponse.id r) (PostResponse.title r) (PostResponse.content r)
          (PostResponse.excerpt r) (PostResponse.category r)
          (PostResponse.author_id r) (PostResponse.created_at r)
          (PostResponse.updated_at r).

(** Newest-created first. *)
Definition newest_first {A} (key : A -> Z) (l : list A) : Prop :=
  StronglySorted (fun a b => key b <= key a) l.

(** The value a column takes under an optional assignment. *)
Definition assigned {A} (new : option A) (old : A) : A :=
  match new with
  | Some v => v
  | None => old
  end.

Definition assigned_opt {A} (new : option A) (old : option A) : option A :=
  match new with
  | Some v => Some v
  | None => old
  end.

(** The row a handler's lookup by primary key finds. *)
Definition stored_user (db : Database) (user_id : string) : option User.t :=
  first (fun u => String.eqb (User.id u) user_id) (users db).

Definition stored_post (db : Database) (post_id : string) : option Post.t :=
  first (fun p => String.eqb (Post.id p) post_id) (posts db).

Definition stored_comment (db : Database) (comment_id : string) : option Comment.t :=
  first (fun c => String.eqb (Comment.id c) comment_id) (comments db).

(** The handler answers with an error of status [code] and leaves the
    database as it found it. *)
Definition rejects {A} (code : Z) (c : M A) (db : Database) : Prop :=
  exists e, c db = (db, Raise e) /\ status_code e = code.

Definition succeeds {A} (c : M A) (db : Database) : Prop :=
  exists db' r, c db = (db', Ok r).

(** The three ways a guarded handler can go, for a caller taken from the
    users table: the row is missing (404), it is someone else's (403), or
    it is the caller's and the handler answers. *)
Inductive Outcome {A} (c : M A) (db : Database) (exists_ : bool) : Prop :=
| Missing : exists_ = false -> rejects HTTP_404_NOT_FOUND c db -> Outcome c db exists_
| Foreign : exists_ = true -> rejects HTTP_403_FORBIDDEN c db -> Outcome c db exists_
| Served : exists_ = true -> succeeds c db -> Outcome c db exists_.

Definition is_some {A} (o : option A) : bool :=
  match o with
  | Some _ => true
  | None => false
  end.

(** [Comment.author_id] is declared [ForeignKey("users.id")]. *)
Definition comments_have_authors (db : Database) : Prop :=
  forall c, In c (comments db) ->
    exists u, In u (users db) /\ User.id u = Comment.author_id c.

(** The [id] column of each table is declared [primary_key=True]. *)
Definition primary_keys_unique (db : Database) : Prop :=
  NoDup (map User.id (users db)) /\
  NoDup (map Post.id (posts db)) /\
  NoDup (map Comment.id (comments db)).

(** The stored columns a comment view carries. *)
Definition comment_of_response (r : CommentResponse.t) : Comment.t :=
  Comment.mk (CommentResponse.id r) (CommentResponse.content r)
             (CommentResponse.post_id r) (CommentResponse.author_id r)
             (CommentResponse.created_at r) (CommentResponse.updated_at r).

(** The columns of a user row that no handler assigns after the insert. *)
Definition same_account (u u' : User.t) : Prop :=
  User.id u' = User.id u /\ User.email u' = User.email u /\
  User.password u' = User.password u /\ User.created_at u' = User.created_at u.

(** The columns of a post row that no handler assigns after the insert. *)
Definition same_post_origin (p p' : Post.t) : Prop :=
  Post.id p' = Post.id p /\ Post.author_id p' = Post.author_id p /\
  Post.created_at p' = Post.created_at p.

(** The columns of a comment row that no handler assigns after the insert. *)
Definition same_comment_origin (c c' : Comment.t) : Prop :=
  Comment.id c' = Comment.id c /\ Comment.post_id c' = Comment.post_id c /\
  Comment.author_id c' = Comment.author_id c /\
  Comment.created_at c' = Comment.created_at c.

(* ===================================================================== *)
(** ** A small run of the application, for concrete instances *)
(* ===================================================================== *)

(** Stand-ins for the two keyed functions: the digest appends the password
    to the salt, the signature appends the subject to the key. *)
Definition toy_primitives : Primitives :=
  {| digest := fun s p => String.append s p;
     sign := fun _ key subject _ => String.append key subject |}.

Definition demo_settings : Settings.t := default_settings "k".

Definition demo_alice : User.t :=
  User.mk "u1" "a@x.com" (mkPasswordHash "s1" "s1secret1") "Alice" None 10.

Definition demo_alice' : User.t :=
  User.mk "u1" "a@x.com" (mkPasswordHash "s1" "s1secret1") "Alice" (Some "a.png") 10.

Definition demo_bob : User.t :=
  User.mk "u2" "b@x.com" (mkPasswordHash "s2" "s2secret2") "Bob" None 20.

Definition demo_requests : list Request :=
  [ Register "u1" "s1" 10 11 (UserCreate.mk "a@x.com" "Alice" "secret1");
    Register "u2" "s2" 20 21 (UserCreate.mk "b@x.com" "Bob" "secret2");
    UpdateUserProfile (UserUpdate.mk None (Some "a.png")) demo_alice;
    CreatePost "p1" 30 31 (PostCreate.mk "Hello" "World" (Some "hi") None) demo_alice';
    CreatePost "p2" 40 41 (PostCreate.mk "Again" "Text" None (Some "misc")) demo_bob;
    CreateComment "c1" 50 51 "p1" (CommentCreate.mk "Nice") demo_bob ].

Definition demo_db : Database :=
  Eval vm_compute in
    fold_left (fun db r => @serve toy_primitives demo_settings r db)
              demo_requests empty_db.

(** The same run before the first comment is written. *)
Definition demo_db_no_comments : Database :=
  Eval vm_compute in
    fold_left (fun db r => @serve toy_primitives demo_settings r db)
              (firstn 5 demo_requests) empty_db.


Definition demo_post : Post.t :=
  Post.mk "p1" "Hello" "World" (Some "hi") None "u1" 30 31.

Definition demo_comment : Comment.t :=
  Comment.mk "c1" "Nice" "p1" "u2" 50 51.

(* ===================================================================== *)
(** ** Facts about queries and the assignments *)
(* ===================================================================== *)

Arguments first : simpl never.
Arguments assign_post_fields : simpl never.
Arguments assign_comment_fields : simpl never.
Arguments assign_user_fields : simpl never.
Arguments create_access_token : simpl never.
Arguments verify_token : simpl never.
Arguments get_password_hash : simpl never.

Lemma first_In {A} (cond : A -> bool) rows x :
  first cond rows = Some x -> In x rows /\ cond x = true.
Proof. unfold first. apply find_some. Qed.

Lemma first_exists {A} (cond : A -> bool) rows x :
  In x rows -> cond x = true -> exists y, first cond rows = Some y.
Proof.
  unfold first. intros Hin Hc.
  destruct (find cond rows) as [y|] eqn:E.
  - now exists y.
  - apply find_none with (x := x) in E; [congruence | assumption].
Qed.

Lemma first_update_where {A} (cond : A -> bool) (set : A -> A) rows x :
  (forall r, cond (set r) = cond r) ->
  first cond rows = Some x ->
  first cond (update_where cond set rows) = Some (set x).
Proof.
  intros Hset. unfold first, update_where.
  induction rows as [|r rows IH]; simpl; [discriminate|].
  destruct (cond r) eqn:E.
  - intros [= <-]. now rewrite Hset, E.
  - rewrite E. exact IH.
Qed.

Lemma first_update_where_other {A} (cond other : A -> bool) (set : A -> A) rows :
  (forall r, other (set r) = other r) ->
  (forall r, cond r = true -> other r = false) ->
  first other (update_where cond set rows) = first other rows.
Proof.
  intros Hset Hdisj. unfold first, update_where.
  induction rows as [|r rows IH]; simpl; [reflexivity|].
  destruct (cond r) eqn:E.
  - rewrite Hset, (Hdisj r E). exact IH.
  - destruct (other r); [reflexivity | exact IH].
Qed.

Lemma assign_post_fields_columns post_data now post :
  assign_post_fields post_data now post =
  Post.mk (Post.id post)
          (assigned (PostUpdate.title post_data) (Post.title post))
          (assigned (PostUpdate.content post_data) (Post.content post))
          (assigned_opt (PostUpdate.excerpt post_data) (Post.excerpt post))
          (assigned_opt (PostUpdate.category post_data) (Post.category post))
          (Post.author_id post) (Post.created_at post) now.
Proof.
  destruct post_data as [[t|] [c|] [e|] [g|]]; reflexivity.
Qed.

Lemma assign_post_fields_id post_data now post :
  Post.id (assign_post_fields post_data now post) = Post.id post.
Proof. now rewrite assign_post_fields_columns. Qed.

Lemma assign_post_fields_author post_data now post :
  Post.author_id (assign_post_fields post_data now post) = Post.author_id post.
Proof. now rewrite assign_post_fields_columns. Qed.

Lemma assign_comment_fields_author comment_data now c :
  Comment.author_id (assign_comment_fields comment_data now c) = Comment.author_id c.
Proof. reflexivity. Qed.

Lemma assign_comment_fields_id comment_data now c :
  Comment.id (assign_comment_fields comment_data now c) = Comment.id c.
Proof. reflexivity. Qed.

Lemma assign_comment_fields_post comment_data now c :
  Comment.post_id (assign_comment_fields comment_data now c) = Comment.post_id c.
Proof. reflexivity. Qed.

Lemma assign_user_fields_id user_data u :
  User.id (assign_user_fields user_data u) = User.id u.
Proof. destruct user_data as [[n|] [p|]]; reflexivity. Qed.

Lemma assign_user_fields_email user_data u :
  User.email (assign_user_fields user_data u) = User.email u.
Proof. destruct user_data as [[n|] [p|]]; reflexivity. Qed.

(* ===================================================================== *)
(** ** What each guarded handler does, case by case *)
(* ===================================================================== *)

Ltac run_handler :=
  unfold bind, query_post_by_id, query_comment_by_id, query_user_by_id,
    query_user_by_email, load_author, raise, ret; cbn.

Lemma load_author_stored db u :
  In u (users db) ->
  exists a, first (fun r => String.eqb (User.id r) (User.id u)) (users db) = Some a
            /\ load_author (User.id u) db = (db, Ok a).
Proof.
  intros Hin.
  destruct (first_exists (fun r => String.eqb (User.id r) (User.id u)) _ u Hin
              (String.eqb_refl _)) as [a Ha].
  exists a. split; [exact Ha|]. run_handler. now rewrite Ha.
Qed.

Lemma update_post_missing now post_id post_data u db :
  first (fun p => String.eqb (Post.id p) post_id) (posts db) = None ->
  update_post now post_id post_data u db = (db, Raise post_not_found).
Proof. intros E. unfold update_post. run_handler. now rewrite E. Qed.

Lemma update_post_foreign now post_id post_data u db post :
  first (fun p => String.eqb (Post.id p) post_id) (posts db) = Some post ->
  Post.author_id post <> User.id u ->
  update_post now post_id post_data u db =
  (db, Raise (mkHTTPException HTTP_403_FORBIDDEN
                "Unauthorized access - only the author can edit this post")).
Proof.
  intros E Hne. unfold update_post. run_handler. rewrite E.
  apply String.eqb_neq in Hne. now rewrite Hne.
Qed.

Lemma update_post_own now post_id post_data u db post :
  first (fun p => String.eqb (Post.id p) post_id) (posts db) = Some post ->
  Post.author_id post = User.id u ->
  In u (users db) ->
  exists author,
    first (fun r => String.eqb (User.id r) (User.id u)) (users db) = Some author /\
    update_post now post_id post_data u db =
    (mkDatabase (users db)
       (update_where (fun r => String.eqb (Post.id r) (Post.id post))
                     (assign_post_fields post_data now) (posts db))
       (comments db),
     Ok (post_response (assign_post_fields post_data now post) (User.name author))).
Proof.
  intros E Heq Hin.
  destruct (load_author_stored db u Hin) as (a & Ha & _).
  exists a. split; [exact Ha|].
  unfold update_post. run_handler. rewrite E.
  rewrite Heq, String.eqb_refl. cbn.
  unfold commit_post. cbn.
  rewrite assign_post_fields_author, Heq, Ha. reflexivity.
Qed.

Lemma delete_post_missing post_id u db :
  first (fun p => String.eqb (Post.id p) post_id) (posts db) = None ->
  delete_post post_id u db = (db, Raise post_not_found).
Proof. intros E. unfold delete_post. run_handler. now rewrite E. Qed.

Lemma delete_post_foreign post_id u db post :
  first (fun p => String.eqb (Post.id p) post_id) (posts db) = Some post ->
  Post.author_id post <> User.id u ->
  delete_post post_id u db =
  (db, Raise (mkHTTPException HTTP_403_FORBIDDEN
                "Unauthorized access - only the author can delete this post")).
Proof.
  intros E Hne. unfold delete_post. run_handler. rewrite E.
  apply String.eqb_neq in Hne. now rewrite Hne.
Qed.

Lemma delete_post_own post_id u db post :
  first (fun p => String.eqb (Post.id p) post_id) (posts db) = Some post ->
  Post.author_id post = User.id u ->
  delete_post post_id u db =
  (fst (db_delete_post post db), Ok (MessageResponse.mk "Post successfully deleted")).
Proof.
  intros E Heq. unfold delete_post. run_handler. rewrite E.
  now rewrite Heq, String.eqb_refl.
Qed.

Lemma update_comment_missing now comment_id comment_data u db :
  first (fun c => String.eqb (Comment.id c) comment_id) (comments db) = None ->
  update_comment now comment_id comment_data u db = (db, Raise comment_not_found).
Proof. intros E. unfold update_comment. run_handler. now rewrite E. Qed.

Lemma update_comment_foreign now comment_id comment_data u db comment :
  first (fun c => String.eqb (Comment.id c) comment_id) (comments db) = Some comment ->
  Comment.author_id comment <> User.id u ->
  update_comment now comment_id comment_data u db =
  (db, Raise (mkHTTPException HTTP_403_FORBIDDEN
                "Unauthorized access - only the author can edit this comment")).
Proof.
  intros E Hne. unfold update_comment. run_handler. rewrite E.
  apply String.eqb_neq in Hne. now rewrite Hne.
Qed.

Lemma update_comment_own now comment_id comment_data u db comment :
  first (fun c => String.eqb (Comment.id c) comment_id) (comments db) = Some comment ->
  Comment.author_id comment = User.id u ->
  In u (users db) ->
  exists author,
    first (fun r => String.eqb (User.id r) (User.id u)) (users db) = Some author /\
    update_comment now comment_id comment_data u db =
    (mkDatabase (users db) (posts db)
       (update_where (fun r => String.eqb (Comment.id r) (Comment.id comment))
                     (assign_comment_fields comment_data now) (comments db)),
     Ok (comment_response (assign_comment_fields comment_data now comment) author)).
Proof.
  intros E Heq Hin.
  destruct (load_author_stored db u Hin) as (a & Ha & _).
  exists a. split; [exact Ha|].
  unfold update_comment. run_handler. rewrite E.
  rewrite Heq, String.eqb_refl. cbn.
  unfold commit_comment. cbn.
  rewrite assign_comment_fields_author, Heq, Ha. reflexivity.
Qed.

Lemma delete_comment_missing comment_id u db :
  first (fun c => String.eqb (Comment.id c) comment_id) (comments db) = None ->
  delete_comment comment_id u db = (db, Raise comment_not_found).
Proof. intros E. unfold delete_comment. run_handler. now rewrite E. Qed.

Lemma delete_comment_foreign comment_id u db comment :
  first (fun c => String.eqb (Comment.id c) comment_id) (comments db) = Some comment ->
  Comment.author_id comment <> User.id u ->
  delete_comment comment_id u db =
  (db, Raise (mkHTTPException HTTP_403_FORBIDDEN
                "Unauthorized access - only the author can delete this comment")).
Proof.
  intros E Hne. unfold delete_comment. run_handler. rewrite E.
  apply String.eqb_neq in Hne. now rewrite Hne.
Qed.

Lemma delete_comment_own comment_id u db comment :
  first (fun c => String.eqb (Comment.id c) comment_id) (comments db) = Some comment ->
  Comment.author_id comment = User.id u ->
  delete_comment comment_id u db =
  (fst (db_delete_comment comment db),
   Ok (MessageResponse.mk "Comment successfully deleted")).
Proof.
  intros E Heq. unfold delete_comment. run_handler. rewrite E.
  now rewrite Heq, String.eqb_refl.
Qed.

(* ===================================================================== *)
(** ** Ownership and the order of the checks *)
(* ===================================================================== *)

Lemma rejects_not_succeeds {A} code (c : M A) db :
  rejects code c db -> ~ succeeds c db.
Proof. intros (e & He & _) (db' & r & Hr). congruence. Qed.

Lemma update_post_rejects_foreign now post_id post_data u db post :
  stored_post db post_id = Some post -> User.id u <> Post.author_id post ->
  rejects HTTP_403_FORBIDDEN (update_post now post_id post_data u) db.
Proof.
  intros E Hne. eexists. split.
  - apply update_post_foreign with (post := post); [exact E | congruence].
  - reflexivity.
Qed.

Lemma delete_post_rejects_foreign post_id u db post :
  stored_post db post_id = Some post -> User.id u <> Post.author_id post ->
  rejects HTTP_403_FORBIDDEN (delete_post post_id u) db.
Proof.
  intros E Hne. eexists. split.
  - apply delete_post_foreign with (post := post); [exact E | congruence].
  - reflexivity.
Qed.

Lemma update_comment_rejects_foreign now comment_id comment_data u db comment :
  stored_comment db comment_id = Some comment ->
  User.id u <> Comment.author_id comment ->
  rejects HTTP_403_FORBIDDEN (update_comment now comment_id comment_data u) db.
Proof.
  intros E Hne. eexists. split.
  - apply update_comment_foreign with (comment := comment); [exact E | congruence].
  - reflexivity.
Qed.

Lemma delete_comment_rejects_foreign comment_id u db comment :
  stored_comment db comment_id = Some comment ->
  User.id u <> Comment.author_id comment ->
  rejects HTTP_403_FORBIDDEN (delete_comment comment_id u) db.
Proof.
  intros E Hne. eexists. split.
  - apply delete_comment_foreign with (comment := comment); [exact E | congruence].
  - reflexivity.
Qed.

(** From a success to the identity of the caller: a caller who is not the
    author would have been rejected. *)
Ltac by_ownership reject_lemma :=
  let Hs := fresh "Hs" in
  intros Hs;
  match goal with
  | |- ?a = ?b =>
      destruct (String.eqb_spec a b) as [|Hne]; [assumption|];
      exfalso; eapply rejects_not_succeeds; [|exact Hs];
      eapply reject_lemma; eassumption
  end.

(** C1. For any database and any caller [u].  For every stored post: an
    update or a delete of it succeeds only if [u]'s id is the post's author
    id, and when the ids differ both are answered 403 Forbidden and leave
    the database unchanged.  For every stored comment, the same.  Neither
    half depends on the other table. *)
Theorem only_author_mutates db u :
  (forall post_id post,
      stored_post db post_id = Some post ->
      (forall now post_data,
          succeeds (update_post now post_id post_data u) db ->
          User.id u = Post.author_id post) /\
      (succeeds (delete_post post_id u) db -> User.id u = Post.author_id post) /\
      (User.id u <> Post.author_id post ->
       (forall now post_data,
           rejects HTTP_403_FORBIDDEN (update_post now post_id post_data u) db) /\
       rejects HTTP_403_FORBIDDEN (delete_post post_id u) db)) /\
  (forall comment_id comment,
      stored_comment db comment_id = Some comment ->
      (forall now comment_data,
          succeeds (update_comment now comment_id comment_data u) db ->
          User.id u = Comment.author_id comment) /\
      (succeeds (delete_comment comment_id u) db ->
       User.id u = Comment.author_id comment) /\
      (User.id u <> Comment.author_id comment ->
       (forall now comment_data,
           rejects HTTP_403_FORBIDDEN
                   (update_comment now comment_id comment_data u) db) /\
       rejects HTTP_403_FORBIDDEN (delete_comment comment_id u) db)).
Proof.
  split.
  - intros post_id post Hp. split; [|split; [|split]].
    + intros now post_data. by_ownership update_post_rejects_foreign.
    + by_ownership delete_post_rejects_foreign.
    + intros now post_data.
      now apply update_post_rejects_foreign with (post := post).
    + now apply delete_post_rejects_foreign with (post := post).
  - intros comment_id comment Hc. split; [|split; [|split]].
    + intros now comment_data. by_ownership update_comment_rejects_foreign.
    + by_ownership delete_comment_rejects_foreign.
    + intros now comment_data.
      now apply update_comment_rejects_foreign with (comment := comment).
    + now apply delete_comment_rejects_foreign with (comment := comment).
Qed.

(** In a database with no comment at all, Bob's deletion of Alice's post
    is answered 403 and nothing changes; and in the small run Alice's
    update of Bob's comment is answered 403. *)
Lemma only_author_mutates_witness :
  comments demo_db_no_comments = [] /\
  rejects HTTP_403_FORBIDDEN (delete_post "p1" demo_bob) demo_db_no_comments /\
  rejects HTTP_403_FORBIDDEN
          (update_comment 70 "c1" (CommentUpdate.mk "edited") demo_alice') demo_db.
Proof.
  split; [reflexivity|]. split.
  - refine (proj2 (proj2 (proj2
      (proj1 (only_author_mutates demo_db_no_comments demo_bob)
         "p1" demo_post eq_refl)) _)).
    discriminate.
  - refine (proj1 (proj2 (proj2
      (proj2 (only_author_mutates demo_db demo_alice')
         "c1" demo_comment eq_refl)) _) 70 (CommentUpdate.mk "edited")).
    discriminate.
Defined.

Lemma update_post_rejects_missing now post_id post_data u db :
  stored_post db post_id = None ->
  rejects HTTP_404_NOT_FOUND (update_post now post_id post_data u) db.
Proof.
  intros E. exists post_not_found. split; [|reflexivity].
  now apply update_post_missing.
Qed.

Lemma delete_post_rejects_missing post_id u db :
  stored_post db post_id = None ->
  rejects HTTP_404_NOT_FOUND (delete_post post_id u) db.
Proof.
  intros E. exists post_not_found. split; [|reflexivity].
  now apply delete_post_missing.
Qed.

Lemma update_comment_rejects_missing now comment_id comment_data u db :
  stored_comment db comment_id = None ->
  rejects HTTP_404_NOT_FOUND (update_comment now comment_id comment_data u) db.
Proof.
  intros E. exists comment_not_found. split; [|reflexivity].
  now apply update_comment_missing.
Qed.

Lemma delete_comment_rejects_missing comment_id u db :
  stored_comment db comment_id = None ->
  rejects HTTP_404_NOT_FOUND (delete_comment comment_id u) db.
Proof.
  intros E. exists comment_not_found. split; [|reflexivity].
  now apply delete_comment_missing.
Qed.

Lemma update_post_outcome now post_id post_data u db :
  In u (users db) ->
  Outcome (update_post now post_id post_data u) db (is_some (stored_post db post_id)).
Proof.
  intros Hin. destruct (stored_post db post_id) as [post|] eqn:E.
  - destruct (String.eqb_spec (Post.author_id post) (User.id u)) as [Heq|Hne].
    + apply Served; [reflexivity|].
      destruct (update_post_own now post_id post_data u db post E Heq Hin)
        as (a & _ & Hrun).
      unfold succeeds. rewrite Hrun. now eexists _, _.
    + apply Foreign; [reflexivity|].
      apply update_post_rejects_foreign with (post := post); [exact E | congruence].
  - apply Missing; [reflexivity|]. now apply update_post_rejects_missing.
Qed.

Lemma delete_post_outcome post_id u db :
  Outcome (delete_post post_id u) db (is_some (stored_post db post_id)).
Proof.
  destruct (stored_post db post_id) as [post|] eqn:E.
  - destruct (String.eqb_spec (Post.author_id post) (User.id u)) as [Heq|Hne].
    + apply Served; [reflexivity|].
      unfold succeeds. rewrite (delete_post_own post_id u db post E Heq).
      now eexists _, _.
    + apply Foreign; [reflexivity|].
      apply delete_post_rejects_foreign with (post := post); [exact E | congruence].
  - apply Missing; [reflexivity|]. now apply delete_post_rejects_missing.
Qed.

Lemma update_comment_outcome now comment_id comment_data u db :
  In u (users db) ->
  Outcome (update_comment now comment_id comment_data u) db
          (is_some (stored_comment db comment_id)).
Proof.
  intros Hin. destruct (stored_comment db comment_id) as [comment|] eqn:E.
  - destruct (String.eqb_spec (Comment.author_id comment) (User.id u)) as [Heq|Hne].
    + apply Served; [reflexivity|].
      destruct (update_comment_own now comment_id comment_data u db comment E Heq Hin)
        as (a & _ & Hrun).
      unfold succeeds. rewrite Hrun. now eexists _, _.
    + apply Foreign; [reflexivity|].
      apply update_comment_rejects_foreign with (comment := comment);
        [exact E | congruence].
  - apply Missing; [reflexivity|]. now apply update_comment_rejects_missing.
Qed.

Lemma delete_comment_outcome comment_id u db :
  Outcome (delete_comment comment_id u) db (is_some (stored_comment db comment_id)).
Proof.
  destruct (stored_comment db comment_id) as [comment|] eqn:E.
  - destruct (String.eqb_spec (Comment.author_id comment) (User.id u)) as [Heq|Hne].
    + apply Served; [reflexivity|].
      unfold succeeds. rewrite (delete_comment_own comment_id u db comment E Heq).
      now eexists _, _.
    + apply Foreign; [reflexivity|].
      apply delete_comment_rejects_foreign with (comment := comment);
        [exact E | congruence].
  - apply Missing; [reflexivity|]. now apply delete_comment_rejects_missing.
Qed.

(** What an outcome says about a failure: the database is unchanged, and a
    403 means the row exists. *)
Lemma outcome_failure {A} (c : M A) db exists_ e :
  Outcome c db exists_ -> answer c db = Raise e ->
  db_after c db = db /\ (status_code e = HTTP_403_FORBIDDEN -> exists_ = true).
Proof.
  unfold answer, db_after.
  intros [Hx (e' & Hrun & Hcode) | Hx (e' & Hrun & Hcode) | Hx (db' & r & Hrun)];
    rewrite Hrun; cbn; intros He.
  - injection He as <-. split; [reflexivity|].
    rewrite Hcode. discriminate.
  - now split.
  - discriminate.
Qed.

Lemma create_post_failure post_id created updated post_data u db e :
  answer (create_post post_id created updated post_data u) db = Raise e ->
  db_after (create_post post_id created updated post_data u) db = db.
Proof.
  unfold answer, db_after, create_post, bind, add_post, ret. cbn.
  destruct (existsb _ (posts db)); cbn; [reflexivity | discriminate].
Qed.

Lemma create_comment_failure comment_id created updated post_id comment_data u db e :
  answer (create_comment comment_id created updated post_id comment_data u) db
  = Raise e ->
  db_after (create_comment comment_id created updated post_id comment_data u) db = db.
Proof.
  unfold answer, db_after, create_comment, add_comment. run_handler.
  destruct (first _ (posts db)); cbn; [|reflexivity].
  destruct (existsb _ (comments db)); cbn; [reflexivity | discriminate].
Qed.

Lemma is_some_true {A} (o : option A) : is_some o = true -> o <> None.
Proof. destruct o; [discriminate 2 | discriminate 1]. Qed.

Lemma guarded_failure {A} (c : M A) db {B} (row : option B) e :
  Outcome c db (is_some row) -> answer c db = Raise e ->
  db_after c db = db /\ (status_code e = HTTP_403_FORBIDDEN -> row <> None).
Proof.
  intros Ho He. destruct (outcome_failure c db _ e Ho He) as [Hdb H403].
  split; [exact Hdb|]. intros Hcode. apply is_some_true. now apply H403.
Qed.

(** C6. For a caller [u] that the guard took from the users table.
    Existence is checked first: on an id with no row, update and delete of
    a post or a comment answer 404 whoever the caller is.  Ownership is
    checked next: a 403 is answered only when the row exists.  A handler
    that fails has not written: update and delete of posts and comments,
    and the two creations, leave the database unchanged when they raise. *)
Theorem existence_then_ownership db u :
  In u (users db) ->
  (forall caller post_id, stored_post db post_id = None ->
     (forall now post_data,
         rejects HTTP_404_NOT_FOUND (update_post now post_id post_data caller) db) /\
     rejects HTTP_404_NOT_FOUND (delete_post post_id caller) db) /\
  (forall caller comment_id, stored_comment db comment_id = None ->
     (forall now comment_data,
         rejects HTTP_404_NOT_FOUND
                 (update_comment now comment_id comment_data caller) db) /\
     rejects HTTP_404_NOT_FOUND (delete_comment comment_id caller) db) /\
  (forall now post_id post_data e,
     answer (update_post now post_id post_data u) db = Raise e ->
     db_after (update_post now post_id post_data u) db = db /\
     (status_code e = HTTP_403_FORBIDDEN -> stored_post db post_id <> None)) /\
  (forall post_id e,
     answer (delete_post post_id u) db = Raise e ->
     db_after (delete_post post_id u) db = db /\
     (status_code e = HTTP_403_FORBIDDEN -> stored_post db post_id <> None)) /\
  (forall now comment_id comment_data e,
     answer (update_comment now comment_id comment_data u) db = Raise e ->
     db_after (update_comment now comment_id comment_data u) db = db /\
     (status_code e = HTTP_403_FORBIDDEN -> stored_comment db comment_id <> None)) /\
  (forall comment_id e,
     answer (delete_comment comment_id u) db = Raise e ->
     db_after (delete_comment comment_id u) db = db /\
     (status_code e = HTTP_403_FORBIDDEN -> stored_comment db comment_id <> None)) /\
  (forall post_id created updated post_data e,
     answer (create_post post_id created updated post_data u) db = Raise e ->
     db_after (create_post post_id created updated post_data u) db = db) /\
  (forall comment_id created updated post_id comment_data e,
     answer (create_comment comment_id created updated post_id comment_data u) db
     = Raise e ->
     db_after (create_comment comment_id created updated post_id comment_data u) db = db).
Proof.
  intros Hin. repeat apply conj.
  - intros caller post_id E. split.
    + intros now post_data. now apply update_post_rejects_missing.
    + now apply delete_post_rejects_missing.
  - intros caller comment_id E. split.
    + intros now comment_data. now apply update_comment_rejects_missing.
    + now apply delete_comment_rejects_missing.
  - intros now post_id post_data e.
    apply guarded_failure, update_post_outcome, Hin.
  - intros post_id e. apply guarded_failure, delete_post_outcome.
  - intros now comment_id comment_data e.
    apply guarded_failure, update_comment_outcome, Hin.
  - intros comment_id e. apply guarded_failure, delete_comment_outcome.
  - intros post_id created updated post_data e. apply create_post_failure.
  - intros comment_id created updated post_id comment_data e.
    apply create_comment_failure.
Qed.

(** No post has the id "p9": whoever asks, its deletion is answered 404. *)
Lemma existence_then_ownership_witness :
  rejects HTTP_404_NOT_FOUND (delete_post "p9" demo_alice') demo_db.
Proof.
  refine (proj2 (proj1
    (existence_then_ownership demo_db demo_bob _) demo_alice' "p9" eq_refl)).
  simpl. right. left. reflexivity.
Defined.

(* ===================================================================== *)
(** ** The effect of an update by the author *)
(* ===================================================================== *)

Lemma stored_post_id db post_id post :
  stored_post db post_id = Some post -> Post.id post = post_id.
Proof.
  intros E. apply first_In in E as [_ E]. now apply String.eqb_eq.
Qed.

Lemma update_post_by_author now post_id post_data u db post :
  stored_post db post_id = Some post ->
  Post.author_id post = User.id u ->
  In u (users db) ->
  exists author db',
    stored_user db (User.id u) = Some author /\
    update_post now post_id post_data u db =
      (db', Ok (post_response (assign_post_fields post_data now post)
                              (User.name author))) /\
    stored_post db' post_id = Some (assign_post_fields post_data now post) /\
    users db' = users db /\
    comments db' = comments db /\
    (forall other, other <> post_id -> stored_post db' other = stored_post db other).
Proof.
  intros E Heq Hin.
  destruct (update_post_own now post_id post_data u db post E Heq Hin)
    as (a & Ha & Hrun).
  pose proof (stored_post_id _ _ _ E) as Hid.
  exists a. eexists. split; [exact Ha|]. split; [exact Hrun|].
  unfold stored_post. cbn. rewrite Hid. repeat split.
  - apply first_update_where; [|exact E].
    intros r. now rewrite assign_post_fields_id.
  - intros other Hother. apply first_update_where_other.
    + intros r. now rewrite assign_post_fields_id.
    + intros r Hr. apply String.eqb_eq in Hr. apply String.eqb_neq. congruence.
Qed.

(** C7. When the author updates a stored post, the handler answers with
    the view of the updated row, and in the row stored afterwards each of
    title, content, excerpt and category has the value of the request
    where the request gives one and its old value where it gives none,
    [updated_at] is the clock reading, and id, author id and creation time
    are as before.  The other posts, the users and the comments are
    untouched. *)
Theorem update_post_frame now post_id post_data u db post :
  stored_post db post_id = Some post ->
  Post.author_id post = User.id u ->
  In u (users db) ->
  exists db' r post',
    update_post now post_id post_data u db = (db', Ok r) /\
    stored_post db' post_id = Some post' /\
    post_of_response r = post' /\
    Post.title post' = assigned (PostUpdate.title post_data) (Post.title post) /\
    Post.content post' = assigned (PostUpdate.content post_data) (Post.content post) /\
    Post.excerpt post' =
      assigned_opt (PostUpdate.excerpt post_data) (Post.excerpt post) /\
    Post.category post' =
      assigned_opt (PostUpdate.category post_data) (Post.category post) /\
    Post.updated_at post' = now /\
    Post.id post' = Post.id post /\
    Post.author_id post' = Post.author_id post /\
    Post.created_at post' = Post.created_at post /\
    users db' = users db /\
    comments db' = comments db /\
    (forall other, other <> post_id -> stored_post db' other = stored_post db other).
Proof.
  intros E Heq Hin.
  destruct (update_post_by_author now post_id post_data u db post E Heq Hin)
    as (a & db' & _ & Hrun & Hpost & Hu & Hc & Hother).
  exists db', (post_response (assign_post_fields post_data now post) (User.name a)),
    (assign_post_fields post_data now post).
  split; [exact Hrun|]. split; [exact Hpost|].
  split; [now destruct (assign_post_fields post_data now post)|].
  rewrite assign_post_fields_columns. cbn. now repeat split.
Qed.

(** Alice retitles her post at time 60: the title changes, the content
    stays, [updated_at] becomes 60. *)
Lemma update_post_frame_witness :
  exists db' r post',
    update_post 60 "p1" (PostUpdate.mk (Some "Hi") None None None)
                demo_alice' demo_db = (db', Ok r) /\
    stored_post db' "p1" = Some post' /\
    Post.title post' = "Hi" /\
    Post.content post' = "World" /\
    Post.excerpt post' = Some "hi" /\
    Post.updated_at post' = 60.
Proof.
  destruct (update_post_frame 60 "p1" (PostUpdate.mk (Some "Hi") None None None)
              demo_alice' demo_db demo_post eq_refl eq_refl
              (or_introl eq_refl))
    as (db' & r & post' & Hrun & Hpost & _ & Ht & Hc & He & _ & Hu & _).
  exists db', r, post'. repeat split; assumption.
Defined.

(** C10. When the author updates a stored post and the request gives no
    excerpt (no category), the stored excerpt (category) is unchanged; and
    whatever the request gives, an excerpt or category that was set is
    still set afterwards: no update turns it back into null. *)
Theorem update_post_keeps_optional_columns now post_id post_data u db post :
  stored_post db post_id = Some post ->
  Post.author_id post = User.id u ->
  In u (users db) ->
  exists post',
    stored_post (db_after (update_post now post_id post_data u) db) post_id
      = Some post' /\
    (PostUpdate.excerpt post_data = None -> Post.excerpt post' = Post.excerpt post) /\
    (PostUpdate.category post_data = None ->
     Post.category post' = Post.category post) /\
    (Post.excerpt post <> None -> Post.excerpt post' <> None) /\
    (Post.category post <> None -> Post.category post' <> None).
Proof.
  intros E Heq Hin.
  destruct (update_post_by_author now post_id post_data u db post E Heq Hin)
    as (a & db' & _ & Hrun & Hpost & _).
  exists (assign_post_fields post_data now post).
  unfold db_after. rewrite Hrun. cbn. split; [exact Hpost|].
  rewrite assign_post_fields_columns. cbn.
  repeat split.
  - now intros ->.
  - now intros ->.
  - destruct (PostUpdate.excerpt post_data); [discriminate | trivial].
  - destruct (PostUpdate.category post_data); [discriminate | trivial].
Qed.

(** Alice sends an update of her post with every field null: the excerpt
    "hi" is still there. *)
Lemma update_post_keeps_optional_columns_witness :
  exists post',
    stored_post
      (db_after (update_post 70 "p1" (PostUpdate.mk None None None None) demo_alice')
                demo_db) "p1" = Some post' /\
    Post.excerpt post' = Some "hi".
Proof.
  destruct (update_post_keeps_optional_columns 70 "p1"
              (PostUpdate.mk None None None None) demo_alice' demo_db demo_post
              eq_refl eq_refl (or_introl eq_refl))
    as (post' & Hpost & He & _).
  exists post'. split; [exact Hpost | exact (He eq_refl)].
Defined.

(* ===================================================================== *)
(** ** The database each writing handler leaves behind *)
(* ===================================================================== *)

Lemma db_after_register `{Primitives} settings user_id salt created now user_data db :
  db_after (register settings user_id salt created now user_data) db =
  match first (fun u => String.eqb (User.email u) (UserCreate.email user_data))
              (users db) with
  | Some _ => db
  | None =>
      if existsb (fun r => String.eqb (User.id r) user_id) (users db)
         || existsb (fun r => String.eqb (User.email r) (UserCreate.email user_data))
                    (users db)
      then db
      else mkDatabase
             (users db ++
                [User.mk user_id (UserCreate.email user_data)
                         (get_password_hash salt (UserCreate.password user_data))
                         (UserCreate.name user_data) None created])
             (posts db) (comments db)
  end.
Proof.
  unfold db_after, register, add_user. run_handler.
  destruct (first _ (users db)); cbn; [reflexivity|].
  destruct (existsb _ (users db) || existsb _ (users db)); reflexivity.
Qed.

Lemma db_after_update_user_profile user_data u db :
  db_after (update_user_profile user_data u) db =
  mkDatabase (update_where (fun r => String.eqb (User.id r) (User.id u))
                           (assign_user_fields user_data) (users db))
             (posts db) (comments db).
Proof. reflexivity. Qed.

Lemma db_after_create_post post_id created updated post_data u db :
  db_after (create_post post_id created updated post_data u) db =
  if existsb (fun r => String.eqb (Post.id r) post_id) (posts db)
  then db
  else mkDatabase (users db)
         (posts db ++
            [Post.mk post_id (PostCreate.title post_data) (PostCreate.content post_data)
                     (PostCreate.excerpt post_data) (PostCreate.category post_data)
                     (User.id u) created updated])
         (comments db).
Proof.
  unfold db_after, create_post, add_post, bind, ret. cbn.
  destruct (existsb _ (posts db)); reflexivity.
Qed.

Lemma db_after_update_post now post_id post_data u db :
  db_after (update_post now post_id post_data u) db =
  match stored_post db post_id with
  | None => db
  | Some post =>
      if String.eqb (Post.author_id post) (User.id u)
      then mkDatabase (users db)
             (update_where (fun r => String.eqb (Post.id r) (Post.id post))
                           (assign_post_fields post_data now) (posts db))
             (comments db)
      else db
  end.
Proof.
  unfold db_after, update_post, commit_post, stored_post. run_handler.
  destruct (first _ (posts db)) as [post|]; cbn; [|reflexivity].
  destruct (String.eqb (Post.author_id post) (User.id u)); cbn; [|reflexivity].
  destruct (first _ (users db)); reflexivity.
Qed.

Lemma db_after_delete_post post_id u db :
  db_after (delete_post post_id u) db =
  match stored_post db post_id with
  | None => db
  | Some post =>
      if String.eqb (Post.author_id post) (User.id u)
      then mkDatabase (users db)
             (filter (fun r => negb (String.eqb (Post.id r) (Post.id post))) (posts db))
             (delete_comment_rows (map Comment.id (post_comments post db))
                                  (comments db))
      else db
  end.
Proof.
  unfold db_after, delete_post, db_delete_post, stored_post. run_handler.
  destruct (first _ (posts db)) as [post|]; cbn; [|reflexivity].
  destruct (String.eqb (Post.author_id post) (User.id u)); reflexivity.
Qed.

Lemma db_after_create_comment comment_id created updated post_id comment_data u db :
  db_after (create_comment comment_id created updated post_id comment_data u) db =
  match stored_post db post_id with
  | None => db
  | Some _ =>
      if existsb (fun r => String.eqb (Comment.id r) comment_id) (comments db)
      then db
      else mkDatabase (users db) (posts db)
             (comments db ++
                [Comment.mk comment_id (CommentCreate.content comment_data) post_id
                            (User.id u) created updated])
  end.
Proof.
  unfold db_after, create_comment, add_comment, stored_post. run_handler.
  destruct (first _ (posts db)); cbn; [|reflexivity].
  destruct (existsb _ (comments db)); reflexivity.
Qed.

Lemma db_after_update_comment now comment_id comment_data u db :
  db_after (update_comment now comment_id comment_data u) db =
  match stored_comment db comment_id with
  | None => db
  | Some comment =>
      if String.eqb (Comment.author_id comment) (User.id u)
      then mkDatabase (users db) (posts db)
             (update_where (fun r => String.eqb (Comment.id r) (Comment.id comment))
                           (assign_comment_fields comment_data now) (comments db))
      else db
  end.
Proof.
  unfold db_after, update_comment, commit_comment, stored_comment. run_handler.
  destruct (first _ (comments db)) as [comment|]; cbn; [|reflexivity].
  destruct (String.eqb (Comment.author_id comment) (User.id u)); cbn; [|reflexivity].
  destruct (first _ (users db)); reflexivity.
Qed.

Lemma db_after_delete_comment comment_id u db :
  db_after (delete_comment comment_id u) db =
  match stored_comment db comment_id with
  | None => db
  | Some comment =>
      if String.eqb (Comment.author_id comment) (User.id u)
      then mkDatabase (users db) (posts db)
             (delete_comment_rows [Comment.id comment] (comments db))
      else db
  end.
Proof.
  unfold db_after, delete_comment, db_delete_comment, stored_comment. run_handler.
  destruct (first _ (comments db)) as [comment|]; cbn; [|reflexivity].
  destruct (String.eqb (Comment.author_id comment) (User.id u)); reflexivity.
Qed.

(** The handlers that are not requests of [serve] only read. *)
Lemma map_M_reads {A B} (f : A -> M B) l :
  (forall x db, db_after (f x) db = db) ->
  forall db, db_after (map_M f l) db = db.
Proof.
  intros Hf. unfold db_after in *. induction l as [|x l IH]; intros db.
  - reflexivity.
  - cbn [map_M]. unfold bind at 1. specialize (Hf x db).
    destruct (f x db) as [db1 [y|e]]; cbn in Hf; subst db1; [|reflexivity].
    unfold bind at 1. specialize (IH db).
    destruct (map_M f l db) as [db2 [ys|e]]; cbn in IH; subst db2; reflexivity.
Qed.

Lemma load_author_reads author_id db : db_after (load_author author_id) db = db.
Proof.
  unfold db_after, load_author. run_handler.
  now destruct (first _ (users db)).
Qed.

Lemma readers_leave_db `{Primitives} settings db :
  (forall now credentials, db_after (login settings now credentials) db = db) /\
  db_after logout db = db /\
  (forall u, db_after (get_current_user_profile u) db = db) /\
  (forall u, db_after (get_user_posts u) db = db) /\
  db_after get_all_posts db = db /\
  (forall post_id, db_after (get_post_by_id post_id) db = db) /\
  (forall post_id, db_after (get_comments_by_post post_id) db = db) /\
  (forall now token, db_after (get_current_user settings now token) db = db).
Proof.
  repeat apply conj; try reflexivity.
  - intros now credentials. unfold db_after, login. run_handler.
    destruct (first _ (users db)) as [u|]; cbn; [|reflexivity].
    now destruct (verify_password _ _).
  - unfold get_all_posts.
    apply (map_M_reads _ (order_by_desc Post.created_at (posts db))).
    intros post d. unfold db_after, bind.
    pose proof (load_author_reads (Post.author_id post) d) as Hl.
    unfold db_after in Hl. now destruct (load_author _ d) as [d1 [a|e]]; cbn in *; subst.
  - intros post_id. unfold db_after, get_post_by_id. run_handler.
    destruct (first _ (posts db)) as [post|]; cbn; [|reflexivity].
    now destruct (first _ (users db)).
  - intros post_id. unfold get_comments_by_post. unfold db_after, bind at 1.
    unfold query_post_by_id. destruct (first _ (posts db)); [|reflexivity].
    apply (map_M_reads _ _).
    intros comment d. unfold db_after, bind.
    pose proof (load_author_reads (Comment.author_id comment) d) as Hl.
    unfold db_after in Hl. now destruct (load_author _ d) as [d1 [a|e]]; cbn in *; subst.
  - intros now [token|]; [|reflexivity]. unfold db_after, get_current_user.
    destruct (verify_token settings now token); [|reflexivity]. run_handler.
    now destruct (first _ (users db)).
Qed.

(* ===================================================================== *)
(** ** Invariants of the reachable databases *)
(* ===================================================================== *)

Lemma update_where_keys {A K} (key : A -> K) cond set rows :
  (forall r, key (set r) = key r) ->
  map key (update_where cond set rows) = map key rows.
Proof.
  intros Hkey. unfold update_where. rewrite map_map.
  apply map_ext. intros r. destruct (cond r); [apply Hkey | reflexivity].
Qed.

Lemma In_update_where {A} (cond : A -> bool) set rows x :
  In x (update_where cond set rows) ->
  exists r, In r rows /\ (x = r \/ x = set r).
Proof.
  unfold update_where. rewrite in_map_iff. intros (r & Hx & Hr).
  exists r. split; [exact Hr|]. destruct (cond r); auto.
Qed.

Lemma In_delete_comment_rows pks rows c :
  In c (delete_comment_rows pks rows) <->
  In c rows /\ ~ In (Comment.id c) pks.
Proof.
  unfold delete_comment_rows. rewrite filter_In, negb_true_iff.
  split; intros [Hin Hpk]; (split; [exact Hin|]).
  - intros Hc. enough (existsb (String.eqb (Comment.id c)) pks = true) by congruence.
    apply existsb_exists. exists (Comment.id c). split; [exact Hc|].
    apply String.eqb_refl.
  - destruct (existsb _ pks) eqn:E; [|reflexivity].
    apply existsb_exists in E as (pk & Hpk' & Heq).
    apply String.eqb_eq in Heq. subst pk. contradiction.
Qed.

Lemma first_email_none e rows :
  first (fun u => String.eqb (User.email u) e) rows = None ->
  ~ In e (map User.email rows).
Proof.
  intros E Hin. apply in_map_iff in Hin as (u & He & Hu).
  unfold first in E. apply find_none with (x := u) in E; [|exact Hu].
  rewrite He, String.eqb_refl in E. discriminate.
Qed.

Ltac handler_cases :=
  repeat match goal with
         | |- context [match ?x with _ => _ end] => destruct x eqn:?
         | H : context [match ?x with _ => _ end] |- _ => destruct x eqn:?
         end.

Ltac after_serve :=
  cbn [serve];
  rewrite ?db_after_register, ?db_after_update_user_profile, ?db_after_create_post,
    ?db_after_update_post, ?db_after_delete_post, ?db_after_create_comment,
    ?db_after_update_comment, ?db_after_delete_comment.

Ltac after_serve_in H :=
  cbn [serve] in H;
  rewrite ?db_after_register, ?db_after_update_user_profile, ?db_after_create_post,
    ?db_after_update_post, ?db_after_delete_post, ?db_after_create_comment,
    ?db_after_update_comment, ?db_after_delete_comment in H.

(** No request removes a user or changes a user id. *)
Lemma serve_keeps_user_ids `{Primitives} settings r db u :
  In u (users db) ->
  exists u', In u' (users (serve settings r db)) /\ User.id u' = User.id u.
Proof.
  intros Hin. destruct r; after_serve; handler_cases; cbn;
    try (exists u; split; [assumption | reflexivity]).
  - exists u. split; [apply in_or_app; now left | reflexivity].
  - match goal with
    | |- context [update_where ?c ?s _] =>
        exists (if c u then s u else u); split;
        [ unfold update_where; apply in_map with (f := fun r => if c r then s r else r);
          exact Hin
        | destruct (c u); [apply assign_user_fields_id | reflexivity] ]
    end.
Qed.

(** Where a post of the next database comes from: it has the author of a
    post that was there, or it is a new post of the caller. *)
Lemma serve_post_origin `{Primitives} settings r db p :
  authenticated r db ->
  In p (posts (serve settings r db)) ->
  (exists p0, In p0 (posts db) /\ Post.author_id p = Post.author_id p0) \/
  (exists u, In u (users db) /\ User.id u = Post.author_id p).
Proof.
  intros Hauth Hin. destruct r; after_serve_in Hin; handler_cases; cbn in Hin;
    try (left; exists p; split; [assumption | reflexivity]).
  - apply in_app_or in Hin as [Hin | [<- | []]].
    + left. exists p. now split.
    + right. exists current_user. split; [exact Hauth | reflexivity].
  - apply In_update_where in Hin as (p0 & Hp0 & [-> | ->]).
    + left. exists p0. now split.
    + left. exists p0. split; [exact Hp0 | apply assign_post_fields_author].
  - apply filter_In in Hin as [Hin _]. left. exists p. now split.
Qed.

(** In every reachable database the author of each post is a user. *)
Lemma reachable_posts_have_authors `{Primitives} settings db :
  reachable settings db -> posts_have_authors db.
Proof.
  induction 1 as [|db r Hreach IH Hauth].
  - intros p [].
  - intros p Hin.
    assert (exists u, In u (users db) /\ User.id u = Post.author_id p)
      as (u & Hu & Hid).
    { destruct (serve_post_origin settings r db p Hauth Hin)
        as [(p0 & Hp0 & Heq) | Hnew]; [|exact Hnew].
      destruct (IH p0 Hp0) as (u & Hu & Hid). exists u. split; congruence. }
    destruct (serve_keeps_user_ids settings r db u Hu) as (u' & Hu' & Hid').
    exists u'. split; congruence.
Qed.

(** Where a comment of the next database comes from: it has the post
    reference of a comment that was there, or it is a new comment on a
    post that is there. *)
Lemma serve_comment_origin `{Primitives} settings r db c :
  In c (comments (serve settings r db)) ->
  (exists c0, In c0 (comments db) /\ Comment.post_id c = Comment.post_id c0) \/
  (exists p, In p (posts db) /\ Post.id p = Comment.post_id c).
Proof.
  intros Hin. destruct r; after_serve_in Hin; handler_cases; cbn in Hin;
    try (left; exists c; split; [assumption | reflexivity]).
  - apply In_delete_comment_rows in Hin as [Hin _]. left. exists c. now split.
  - apply in_app_or in Hin as [Hin | [<- | []]].
    + left. exists c. now split.
    + right.
      match goal with
      | E : stored_post _ _ = Some ?p |- _ =>
          exists p; split; [exact (proj1 (first_In _ _ _ E)) | cbn;
                            exact (stored_post_id _ _ _ E)]
      end.
  - apply In_update_where in Hin as (c0 & Hc0 & [-> | ->]).
    + left. exists c0. now split.
    + left. exists c0. now split.
  - apply In_delete_comment_rows in Hin as [Hin _]. left. exists c. now split.
Qed.

(** A comment that is in the next database has not lost its post: the
    only request that removes a post removes the comments on it too. *)
Lemma serve_keeps_commented_posts `{Primitives} settings r db c p :
  In c (comments (serve settings r db)) ->
  In p (posts db) -> Post.id p = Comment.post_id c ->
  exists p', In p' (posts (serve settings r db)) /\ Post.id p' = Post.id p.
Proof.
  intros Hc Hp Hid. destruct r; after_serve; after_serve_in Hc; handler_cases;
    cbn in *; try (exists p; split; [assumption | reflexivity]).
  - exists p. split; [apply in_or_app; now left | reflexivity].
  - match goal with
    | |- context [update_where ?cond ?s _] =>
        exists (if cond p then s p else p); split;
        [ unfold update_where;
          apply in_map with (f := fun r => if cond r then s r else r); exact Hp
        | destruct (cond p); [apply assign_post_fields_id | reflexivity] ]
    end.
  - exists p. split; [|reflexivity].
    apply filter_In. split; [exact Hp|].
    apply negb_true_iff, String.eqb_neq. intros Hdel.
    apply In_delete_comment_rows in Hc as [Hc Hpk]. apply Hpk.
    apply in_map. unfold post_comments. apply filter_In. split; [exact Hc|].
    apply String.eqb_eq. congruence.
Qed.

Lemma reachable_comments_have_posts `{Primitives} settings db :
  reachable settings db -> comments_have_posts db.
Proof.
  induction 1 as [|db r Hreach IH Hauth].
  - intros c [].
  - intros c Hin.
    assert (exists p, In p (posts db) /\ Post.id p = Comment.post_id c)
      as (p & Hp & Hid).
    { destruct (serve_comment_origin settings r db c Hin)
        as [(c0 & Hc0 & Heq) | Hnew]; [|exact Hnew].
      destruct (IH c0 Hc0) as (p & Hp & Hid). exists p. split; congruence. }
    destruct (serve_keeps_commented_posts settings r db c p Hin Hp Hid)
      as (p' & Hp' & Hid').
    exists p'. split; congruence.
Qed.

Lemma create_comment_missing_post comment_id created updated post_id comment_data u db :
  stored_post db post_id = None ->
  rejects HTTP_404_NOT_FOUND
          (create_comment comment_id created updated post_id comment_data u) db.
Proof.
  intros E. exists post_not_found. split; [|reflexivity].
  unfold create_comment. run_handler. unfold stored_post in E. now rewrite E.
Qed.

Lemma delete_post_cascades post_id u db db' r :
  delete_post post_id u db = (db', Ok r) ->
  stored_post db' post_id = None /\
  forall c, In c (comments db') -> Comment.post_id c <> post_id.
Proof.
  intros Hrun.
  assert (db' = db_after (delete_post post_id u) db) as ->
      by (unfold db_after; now rewrite Hrun).
  rewrite db_after_delete_post.
  destruct (stored_post db post_id) as [post|] eqn:E.
  - pose proof (stored_post_id _ _ _ E) as Hid.
    destruct (String.eqb_spec (Post.author_id post) (User.id u)) as [Heq|Hne].
    + split.
      * unfold stored_post, first. cbn.
        destruct (find _ (filter _ (posts db))) as [q|] eqn:F; [|reflexivity].
        apply find_some in F as [Hq Hqid]. apply filter_In in Hq as [_ Hq].
        apply String.eqb_eq in Hqid. rewrite Hqid, Hid, String.eqb_refl in Hq.
        discriminate.
      * cbn. intros c Hc Hpid.
        apply In_delete_comment_rows in Hc as [Hc Hpk]. apply Hpk.
        apply in_map. unfold post_comments. apply filter_In. split; [exact Hc|].
        apply String.eqb_eq. congruence.
    + rewrite (delete_post_foreign post_id u db post E Hne) in Hrun. discriminate.
  - rewrite (delete_post_missing post_id u db E) in Hrun. discriminate.
Qed.

(** C2. In every reachable database each comment refers to a post that is
    stored.  Two handlers keep it so: creating a comment on a post id with
    no row is answered 404 and writes nothing, and a successful deletion of
    a post leaves neither the post nor any comment with its id as
    [post_id]. *)
Theorem comments_reference_stored_posts `{Primitives} settings db :
  reachable settings db ->
  comments_have_posts db /\
  (forall comment_id created updated post_id comment_data u,
      stored_post db post_id = None ->
      rejects HTTP_404_NOT_FOUND
              (create_comment comment_id created updated post_id comment_data u) db) /\
  (forall post_id u db' r,
      delete_post post_id u db = (db', Ok r) ->
      stored_post db' post_id = None /\
      forall c, In c (comments db') -> Comment.post_id c <> post_id).
Proof.
  intros Hreach. split; [|split].
  - now apply reachable_comments_have_posts with (settings := settings).
  - intros. now apply create_comment_missing_post.
  - intros post_id u db' r. apply delete_post_cascades.
Qed.

Ltac pick_row :=
  vm_compute; repeat (first [left; reflexivity | right]).

Lemma reachable_demo : @reachable toy_primitives demo_settings demo_db.
Proof.
  change demo_db with
    (fold_left (fun db r => @serve toy_primitives demo_settings r db)
               demo_requests empty_db).
  unfold demo_requests. cbn [fold_left].
  repeat (apply reachable_serve; [| try exact I; pick_row]).
  apply reachable_empty.
Qed.

(** In the small run every comment has its post, and a comment on the
    unknown post "p9" is answered 404. *)
Lemma comments_reference_stored_posts_witness :
  comments_have_posts demo_db /\
  rejects HTTP_404_NOT_FOUND
          (create_comment "c2" 60 61 "p9" (CommentCreate.mk "x") demo_bob) demo_db.
Proof.
  destruct (@comments_reference_stored_posts toy_primitives demo_settings demo_db
              reachable_demo) as (Hinv & Hcreate & _).
  split; [exact Hinv | apply Hcreate; reflexivity].
Defined.

Lemma NoDup_snoc {A} (l : list A) x : NoDup l -> ~ In x l -> NoDup (l ++ [x]).
Proof.
  intros Hl Hx. apply Permutation_NoDup with (l := x :: l).
  - apply Permutation_cons_append.
  - now constructor.
Qed.

Lemma NoDup_map_injective {A B} (f : A -> B) l a b :
  NoDup (map f l) -> In a l -> In b l -> f a = f b -> a = b.
Proof.
  induction l as [|x l IH]; cbn; [intros _ []|].
  intros Hnd Ha Hb Heq. inversion Hnd as [|? ? Hx Hl]; subst.
  destruct Ha as [-> | Ha], Hb as [-> | Hb]; [reflexivity | | | now apply IH].
  - exfalso. apply Hx. rewrite Heq. now apply in_map.
  - exfalso. apply Hx. rewrite <- Heq. now apply in_map.
Qed.

Lemma serve_emails_unique `{Primitives} settings r db :
  emails_unique db -> emails_unique (serve settings r db).
Proof.
  unfold emails_unique. intros Hnd.
  destruct r; after_serve; handler_cases; cbn; try assumption.
  - rewrite map_app. cbn. apply NoDup_snoc; [exact Hnd|].
    now apply first_email_none.
  - rewrite update_where_keys; [exact Hnd|]. apply assign_user_fields_email.
Qed.

Lemma reachable_emails_unique `{Primitives} settings db :
  reachable settings db -> emails_unique db.
Proof.
  induction 1 as [|db r Hreach IH Hauth].
  - constructor.
  - now apply serve_emails_unique.
Qed.

Lemma register_conflict `{Primitives} settings user_id salt created now user_data db u :
  In u (users db) -> User.email u = UserCreate.email user_data ->
  rejects HTTP_400_BAD_REQUEST (register settings user_id salt created now user_data) db.
Proof.
  intros Hin Hemail.
  destruct (first_exists
              (fun r => String.eqb (User.email r) (UserCreate.email user_data))
              (users db) u Hin) as [x Hx].
  { rewrite Hemail. apply String.eqb_refl. }
  eexists. split.
  - unfold register. run_handler. rewrite Hx. reflexivity.
  - reflexivity.
Qed.

(** C3. In every reachable database no email occurs twice in the users
    table, so two user rows with the same email are the same row; and a
    registration with the email of a stored user is answered 400 and leaves
    the database, the users table included, as it was. *)
Theorem email_unique `{Primitives} settings db :
  reachable settings db ->
  emails_unique db /\
  (forall u1 u2, In u1 (users db) -> In u2 (users db) ->
                 User.email u1 = User.email u2 -> u1 = u2) /\
  (forall user_id salt created now user_data u,
      In u (users db) -> User.email u = UserCreate.email user_data ->
      rejects HTTP_400_BAD_REQUEST
              (register settings user_id salt created now user_data) db).
Proof.
  intros Hreach.
  pose proof (reachable_emails_unique settings db Hreach) as Hnd.
  split; [exact Hnd|]. split.
  - intros u1 u2. now apply NoDup_map_injective.
  - intros. now apply register_conflict with (u := u).
Qed.

(** In the small run, a second registration with Alice's email is answered
    400 and writes nothing. *)
Lemma email_unique_witness :
  emails_unique demo_db /\
  rejects HTTP_400_BAD_REQUEST
          (@register toy_primitives demo_settings "u3" "s3" 60 61
                     (UserCreate.mk "a@x.com" "Eve" "secret3")) demo_db.
Proof.
  destruct (@email_unique toy_primitives demo_settings demo_db reachable_demo)
    as (Hnd & _ & Hconflict).
  split; [exact Hnd|].
  apply Hconflict with (u := demo_alice'); [left|]; reflexivity.
Defined.

(* ===================================================================== *)
(** ** Tokens and passwords *)
(* ===================================================================== *)

Lemma verify_token_fresh `{Primitives} settings now now' subject :
  now' < now + 60 * Settings.ACCESS_TOKEN_EXPIRE_MINUTES settings ->
  verify_token settings now' (create_access_token settings now subject)
  = Subject subject.
Proof.
  intros Hlt. unfold verify_token, create_access_token. cbn [sub exp signature].
  rewrite String.eqb_refl. cbn [negb].
  destruct (Z.leb_spec (now + 60 * Settings.ACCESS_TOKEN_EXPIRE_MINUTES settings) now');
    [lia | reflexivity].
Qed.

Lemma first_snoc_fresh {A} (cond : A -> bool) rows x :
  existsb cond rows = false -> cond x = true ->
  first cond (rows ++ [x]) = Some x.
Proof.
  unfold first. induction rows as [|r rows IH]; cbn; intros Hex Hx.
  - now rewrite Hx.
  - apply orb_false_iff in Hex as [Hr Hex]. rewrite Hr. now apply IH.
Qed.

Lemma get_current_user_stored `{Primitives} settings now token db u :
  verify_token settings now token = Subject (User.id u) ->
  In u (users db) ->
  exists u', stored_user db (User.id u) = Some u' /\
             User.id u' = User.id u /\
             get_current_user settings now (Some token) db = (db, Ok u').
Proof.
  intros Hv Hin.
  destruct (first_exists (fun r => String.eqb (User.id r) (User.id u)) _ u Hin
              (String.eqb_refl _)) as [u' Hu'].
  exists u'. split; [exact Hu'|]. split.
  - apply first_In in Hu' as [_ Hid]. now apply String.eqb_eq.
  - unfold get_current_user. rewrite Hv. run_handler. now rewrite Hu'.
Qed.

Lemma fold_serve_keeps_user_ids `{Primitives} settings rs db u :
  In u (users db) ->
  exists u', In u' (users (fold_left (fun d r => serve settings r d) rs db))
             /\ User.id u' = User.id u.
Proof.
  revert db u. induction rs as [|r rs IH]; cbn; intros db u Hin.
  - now exists u.
  - destruct (serve_keeps_user_ids settings r db u Hin) as (u1 & Hu1 & Hid1).
    destruct (IH _ u1 Hu1) as (u2 & Hu2 & Hid2).
    exists u2. split; [exact Hu2 | congruence].
Qed.

Lemma register_success `{Primitives} settings user_id salt created now user_data
  db db' token :
  register settings user_id salt created now user_data db = (db', Ok token) ->
  let new_user :=
    User.mk user_id (UserCreate.email user_data)
            (get_password_hash salt (UserCreate.password user_data))
            (UserCreate.name user_data) None created in
  existsb (fun r => String.eqb (User.id r) user_id) (users db) = false /\
  db' = mkDatabase (users db ++ [new_user]) (posts db) (comments db) /\
  token = Token.mk (create_access_token settings now user_id) "bearer"
                   (user_response new_user).
Proof.
  unfold register, add_user. run_handler.
  destruct (first _ (users db)); cbn; [discriminate|].
  destruct (existsb (fun r => String.eqb (User.id r) user_id) (users db));
    cbn; [discriminate|].
  destruct (existsb _ (users db)); cbn; [discriminate|].
  intros [= <- <-]. now repeat split.
Qed.

(** C4. When a registration succeeds (the row inserted at [created], the
    token stamped at [now]), the token it returns has the id of
    the new user row as subject; until the token expires [verify_token]
    returns that id, and the guard resolves the token to the new row in the
    database that the registration leaves behind, and to a row with that id
    in every database that later requests lead to. *)
Theorem register_token_resolves `{Primitives} settings user_id salt created now
  user_data db db' (token : Token.t) now' :
  register settings user_id salt created now user_data db = (db', Ok token) ->
  now' < now + 60 * Settings.ACCESS_TOKEN_EXPIRE_MINUTES settings ->
  let new_user :=
    User.mk user_id (UserCreate.email user_data)
            (get_password_hash salt (UserCreate.password user_data))
            (UserCreate.name user_data) None created in
  users db' = users db ++ [new_user] /\
  sub (Token.access_token token) = user_id /\
  Token.user token = user_response new_user /\
  verify_token settings now' (Token.access_token token) = Subject user_id /\
  get_current_user settings now' (Some (Token.access_token token)) db'
    = (db', Ok new_user) /\
  (forall rs,
      let db'' := fold_left (fun d r => serve settings r d) rs db' in
      exists u, get_current_user settings now' (Some (Token.access_token token)) db''
                = (db'', Ok u) /\ User.id u = user_id).
Proof.
  intros Hrun Hlt new_user.
  destruct (register_success settings user_id salt created now user_data db db'
              token Hrun) as (Hfresh & -> & ->).
  fold new_user. cbn [users Token.access_token Token.user].
  pose proof (verify_token_fresh settings now now' user_id Hlt) as Hv.
  split; [reflexivity|]. split; [reflexivity|]. split; [reflexivity|].
  split; [exact Hv|]. split.
  - unfold get_current_user. rewrite Hv. run_handler.
    rewrite first_snoc_fresh; [reflexivity | exact Hfresh | apply String.eqb_refl].
  - intros rs. cbv zeta.
    set (db'' := fold_left _ rs _).
    destruct (fold_serve_keeps_user_ids settings rs
                (mkDatabase (users db ++ [new_user]) (posts db) (comments db))
                new_user) as (u1 & Hu1 & Hid1).
    { cbn. apply in_or_app. right. now left. }
    fold db'' in Hu1.
    destruct (get_current_user_stored settings now'
                (create_access_token settings now user_id) db'' u1)
      as (u2 & _ & Hid2 & Hget).
    + rewrite Hid1. exact Hv.
    + exact Hu1.
    + exists u2. split; [exact Hget | now rewrite Hid2, Hid1].
Qed.

(** Eve registers at time 60 with the default lifetime of 1440 minutes; at
    time 100 the guard resolves her token to her row. *)
Lemma register_token_resolves_witness :
  exists db' token u,
    @register toy_primitives demo_settings "u3" "s3" 60 61
              (UserCreate.mk "e@x.com" "Eve" "secret3") demo_db = (db', Ok token) /\
    @get_current_user toy_primitives demo_settings 100
                      (Some (Token.access_token token)) db' = (db', Ok u) /\
    User.id u = "u3".
Proof.
  eexists _, _, _. split; [vm_compute; reflexivity|].
  split.
  - refine (proj1 (proj2 (proj2 (proj2 (proj2
      (@register_token_resolves toy_primitives demo_settings "u3" "s3" 60 61
         (UserCreate.mk "e@x.com" "Eve" "secret3") demo_db _ _ 100 eq_refl _)))))).
    vm_compute. reflexivity.
  - reflexivity.
Defined.




(* ===================================================================== *)
(** ** Listings *)
(* ===================================================================== *)

Lemma insert_desc_perm {A} (key : A -> Z) x l :
  Permutation (insert_desc key x l) (x :: l).
Proof.
  induction l as [|y l IH]; cbn; [reflexivity|].
  destruct (key y <=? key x); [reflexivity|].
  rewrite IH. apply perm_swap.
Qed.

Lemma order_by_desc_perm {A} (key : A -> Z) l :
  Permutation (order_by_desc key l) l.
Proof.
  unfold order_by_desc. induction l as [|x l IH]; cbn; [reflexivity|].
  rewrite insert_desc_perm. now constructor.
Qed.

Lemma insert_desc_sorted {A} (key : A -> Z) x l :
  newest_first key l -> newest_first key (insert_desc key x l).
Proof.
  unfold newest_first. induction 1 as [|y l Hl IH Hy]; cbn.
  - repeat constructor.
  - destruct (Z.leb_spec (key y) (key x)) as [Hle|Hgt].
    + constructor; [now constructor|]. constructor; [exact Hle|].
      eapply Forall_impl; [|exact Hy]. cbn. intros z Hz. lia.
    + constructor; [exact IH|].
      rewrite insert_desc_perm. constructor; [lia | exact Hy].
Qed.

Lemma order_by_desc_sorted {A} (key : A -> Z) l :
  newest_first key (order_by_desc key l).
Proof.
  unfold order_by_desc. induction l as [|x l IH]; cbn.
  - constructor.
  - now apply insert_desc_sorted.
Qed.

Lemma post_of_response_view post author_name :
  post_of_response (post_response post author_name) = post.
Proof. now destruct post. Qed.

Lemma newest_first_views rs :
  newest_first Post.created_at (map post_of_response rs) ->
  newest_first PostResponse.created_at rs.
Proof.
  unfold newest_first. induction rs as [|r rs IH]; cbn; intros Hs.
  - constructor.
  - inversion Hs as [|? ? Hrest Hall]; subst.
    constructor; [now apply IH|].
    rewrite Forall_map in Hall. exact Hall.
Qed.

(** The views of [get_all_posts], one per listed post, when each of the
    posts has its author in the users table. *)
Lemma post_views_of_list db l :
  (forall p, In p l -> exists u, In u (users db) /\ User.id u = Post.author_id p) ->
  exists rs,
    map_M (fun post =>
             author <- load_author (Post.author_id post) ;;
             ret (post_response post (User.name author))) l db = (db, Ok rs) /\
    map post_of_response rs = l /\
    Forall (fun r => PostResponse.author_profile_picture r = None /\
                     exists a, stored_user db (PostResponse.author_id r) = Some a /\
                               PostResponse.author_name r = User.name a) rs.
Proof.
  induction l as [|p l IH]; intros Hfk.
  - exists []. now repeat split.
  - destruct IH as (rs & Hrun & Hmap & Hall).
    { intros q Hq. apply Hfk. now right. }
    destruct (Hfk p (or_introl eq_refl)) as (u & Hu & Hid).
    destruct (load_author_stored db u Hu) as (a & Ha & Hload).
    exists (post_response p (User.name a) :: rs).
    split; [|split].
    + cbn [map_M]. unfold bind at 1. unfold bind at 1.
      rewrite <- Hid, Hload. cbn [ret]. unfold bind at 1.
      rewrite Hrun. reflexivity.
    + cbn. now rewrite post_of_response_view, Hmap.
    + constructor; [|exact Hall]. split; [reflexivity|].
      exists a. cbn. unfold stored_user. rewrite <- Hid. now split.
Qed.

(** C9. [get_all_posts] answers with one view per stored post, in a
    database where each post has its author among the users (the foreign
    key of the posts table, which holds in every reachable database);
    [get_user_posts] answers, in any database, with one view per stored
    post whose author id is the caller's.  Both lists are ordered by
    creation time, newest first. *)
Theorem listings_newest_first db :
  (posts_have_authors db ->
   exists rs,
     get_all_posts db = (db, Ok rs) /\
     Permutation (map post_of_response rs) (posts db) /\
     newest_first PostResponse.created_at rs) /\
  (forall current_user,
      exists rs,
        get_user_posts current_user db = (db, Ok rs) /\
        Permutation (map post_of_response rs)
          (filter (fun p => String.eqb (Post.author_id p) (User.id current_user))
                  (posts db)) /\
        (forall p, In p (map post_of_response rs) <->
                   In p (posts db) /\ Post.author_id p = User.id current_user) /\
        newest_first PostResponse.created_at rs).
Proof.
  split.
  - intros Hfk.
    destruct (post_views_of_list db (order_by_desc Post.created_at (posts db)))
      as (rs & Hrun & Hmap & _).
    { intros p Hp. apply Hfk.
      apply Permutation_in with (l := order_by_desc Post.created_at (posts db));
        [apply order_by_desc_perm | exact Hp]. }
    exists rs. split; [exact Hrun|]. split.
    + rewrite Hmap. apply order_by_desc_perm.
    + apply newest_first_views. rewrite Hmap. apply order_by_desc_sorted.
  - intros u. eexists. split; [reflexivity|].
    rewrite map_map.
    rewrite (map_ext _ (fun p => p)) by (intros p; apply post_of_response_view).
    rewrite map_id.
    split; [apply order_by_desc_perm|]. split.
    + intros p. split.
      * intros Hp. apply (Permutation_in _ (order_by_desc_perm _ _)) in Hp.
        apply filter_In in Hp as [Hp He].
        split; [exact Hp | now apply String.eqb_eq].
      * intros [Hp He].
        apply (Permutation_in _ (Permutation_sym (order_by_desc_perm _ _))).
        apply filter_In. split; [exact Hp | now apply String.eqb_eq].
    + apply newest_first_views. rewrite map_map.
      rewrite (map_ext _ (fun p => p)) by (intros p; apply post_of_response_view).
      rewrite map_id. apply order_by_desc_sorted.
Qed.

(** In the small run both listings are ordered and complete. *)
Lemma listings_newest_first_witness :
  (exists rs,
      get_all_posts demo_db = (demo_db, Ok rs) /\
      Permutation (map post_of_response rs) (posts demo_db) /\
      newest_first PostResponse.created_at rs) /\
  (exists rs,
      get_user_posts demo_bob demo_db = (demo_db, Ok rs) /\
      newest_first PostResponse.created_at rs).
Proof.
  destruct (listings_newest_first demo_db) as [Hall Hself].
  split.
  - apply Hall.
    exact (@reachable_posts_have_authors toy_primitives demo_settings demo_db
             reachable_demo).
  -
    destruct (Hself demo_bob) as (rs & Hrun & _ & _ & Hsorted).
    exists rs. now split.
Defined.

Example get_all_posts_demo :
  exists rs, get_all_posts demo_db = (demo_db, Ok rs) /\
             map PostResponse.id rs = ["p2"; "p1"] /\
             map PostResponse.created_at rs = [40; 30].
Proof. eexists. split; [vm_compute; reflexivity|]. split; reflexivity. Qed.

(* ===================================================================== *)
(** ** What a post view says about the author *)
(* ===================================================================== *)

Lemma map_M_Forall {A B} (f : A -> M B) (P : B -> Prop) l :
  (forall x db db' y, f x db = (db', Ok y) -> P y) ->
  forall db db' ys, map_M f l db = (db', Ok ys) -> Forall P ys.
Proof.
  intros Hf. induction l as [|x l IH]; cbn [map_M]; intros db db' ys.
  - unfold ret. intros [= _ <-]. constructor.
  - unfold bind at 1. destruct (f x db) as [db1 [y|e]] eqn:Hx; [|discriminate].
    unfold bind at 1. destruct (map_M f l db1) as [db2 [ys'|e]] eqn:Hl; [|discriminate].
    unfold ret. intros [= _ <-]. constructor.
    + eapply Hf, Hx.
    + eapply IH, Hl.
Qed.

Lemma view_with_loaded_author post db db' r :
  (author <- load_author (Post.author_id post) ;;
   ret (post_response post (User.name author))) db = (db', Ok r) ->
  PostResponse.author_profile_picture r = None /\
  exists a, stored_user db (PostResponse.author_id r) = Some a /\
            PostResponse.author_name r = User.name a.
Proof.
  run_handler. unfold stored_user.
  destruct (first _ (users db)) as [a|] eqn:Ha; cbn; [|discriminate].
  intros [= _ <-]. split; [reflexivity|]. exists a. now split.
Qed.

(** Every view that [create_post], [get_post_by_id] and [get_all_posts]
    answer with has no author picture, whatever the author's row holds;
    the author name of a view is the stored name. *)
Lemma post_views_lack_author_picture db :
  (forall post_id created updated post_data u db' r,
      create_post post_id created updated post_data u db = (db', Ok r) ->
      PostResponse.author_profile_picture r = None /\
      PostResponse.author_name r = User.name u) /\
  (forall post_id db' r,
      get_post_by_id post_id db = (db', Ok r) ->
      PostResponse.author_profile_picture r = None /\
      exists a, stored_user db (PostResponse.author_id r) = Some a /\
                PostResponse.author_name r = User.name a) /\
  (forall db' rs,
      get_all_posts db = (db', Ok rs) ->
      Forall (fun r => PostResponse.author_profile_picture r = None) rs).
Proof.
  split; [|split].
  - intros post_id created updated post_data u db' r.
    unfold create_post, add_post, bind, ret.
    destruct (existsb _ (posts db)); [discriminate|].
    intros [= _ <-]. now split.
  - intros post_id db' r. unfold get_post_by_id.
    unfold bind at 1. unfold query_post_by_id.
    destruct (first _ (posts db)) as [post|]; [|discriminate].
    apply view_with_loaded_author.
  - intros db' rs. unfold get_all_posts.
    apply map_M_Forall. intros post d d' r Hr.
    now apply view_with_loaded_author in Hr.
Qed.

(** C8, at a concrete database.  Alice's row holds the picture "a.png".
    The views of her post that [get_post_by_id], [create_post] and
    [get_all_posts] answer with carry her stored name, and no picture. *)
Theorem post_view_drops_author_picture :
  stored_user demo_db "u1" = Some demo_alice' /\
  User.profile_picture demo_alice' = Some "a.png" /\
  (exists r, get_post_by_id "p1" demo_db = (demo_db, Ok r) /\
             PostResponse.author_id r = "u1" /\
             PostResponse.author_name r = "Alice" /\
             PostResponse.author_profile_picture r = None) /\
  (exists db' r,
      create_post "p3" 60 61 (PostCreate.mk "T" "C" None None) demo_alice' demo_db
        = (db', Ok r) /\
      PostResponse.author_id r = "u1" /\
      PostResponse.author_name r = "Alice" /\
      PostResponse.author_profile_picture r = None) /\
  (exists rs, get_all_posts demo_db = (demo_db, Ok rs) /\
              map PostResponse.author_id rs = ["u2"; "u1"] /\
              map PostResponse.author_name rs = ["Bob"; "Alice"] /\
              map PostResponse.author_profile_picture rs = [None; None]).
Proof.
  split; [reflexivity|]. split; [reflexivity|]. split; [|split].
  - eexists. split; [vm_compute; reflexivity|]. now repeat split.
  - eexists _, _. split; [vm_compute; reflexivity|]. now repeat split.
  - eexists. split; [vm_compute; reflexivity|]. now repeat split.
Qed.

(* ===================================================================== *)
(** ** More on lookups *)
(* ===================================================================== *)

Lemma existsb_first {A} (cond : A -> bool) rows :
  existsb cond rows = is_some (first cond rows).
Proof.
  unfold first. induction rows as [|r rows IH]; cbn; [reflexivity|].
  destruct (cond r); [reflexivity | exact IH].
Qed.

Lemma first_snoc_some {A} (cond : A -> bool) rows x y :
  first cond rows = Some y -> first cond (rows ++ [x]) = Some y.
Proof.
  unfold first. induction rows as [|r rows IH]; cbn; [discriminate|].
  destruct (cond r); [trivial | exact IH].
Qed.

Lemma first_snoc_none {A} (cond : A -> bool) rows x :
  first cond rows = None ->
  first cond (rows ++ [x]) = if cond x then Some x else None.
Proof.
  unfold first. induction rows as [|r rows IH]; cbn; [reflexivity|].
  destruct (cond r); [discriminate | exact IH].
Qed.

Lemma first_snoc_other {A} (cond : A -> bool) rows x :
  cond x = false -> first cond (rows ++ [x]) = first cond rows.
Proof.
  intros Hx. destruct (first cond rows) as [y|] eqn:E.
  - now apply first_snoc_some.
  - rewrite first_snoc_none by exact E. now rewrite Hx.
Qed.

(** A lookup in a filtered table, when the filter decides alike on all the
    rows the lookup could find. *)
Lemma first_filter_key {A} (cond keep : A -> bool) (k : bool) rows :
  (forall r, cond r = true -> keep r = k) ->
  first cond (filter keep rows) = if k then first cond rows else None.
Proof.
  intros Hk. unfold first. induction rows as [|r rows IH]; cbn.
  - now destruct k.
  - destruct (cond r) eqn:Hc.
    + rewrite (Hk r Hc). destruct k; cbn; [now rewrite Hc | exact IH].
    + destruct (keep r); cbn; [rewrite Hc|]; exact IH.
Qed.

Lemma stored_user_id db user_id u :
  stored_user db user_id = Some u -> User.id u = user_id.
Proof.
  intros E. apply first_In in E as [_ E]. now apply String.eqb_eq.
Qed.

Lemma stored_comment_id db comment_id c :
  stored_comment db comment_id = Some c -> Comment.id c = comment_id.
Proof.
  intros E. apply first_In in E as [_ E]. now apply String.eqb_eq.
Qed.

Lemma load_author_found db author_id a :
  stored_user db author_id = Some a -> load_author author_id db = (db, Ok a).
Proof. intros E. run_handler. unfold stored_user in E. now rewrite E. Qed.

Lemma get_post_by_id_found db post_id post a :
  stored_post db post_id = Some post ->
  stored_user db (Post.author_id post) = Some a ->
  get_post_by_id post_id db = (db, Ok (post_response post (User.name a))).
Proof.
  intros Hp Ha. unfold get_post_by_id. run_handler.
  unfold stored_post in Hp. rewrite Hp. cbn.
  unfold stored_user in Ha. now rewrite Ha.
Qed.

Lemma get_post_by_id_missing db post_id :
  stored_post db post_id = None ->
  get_post_by_id post_id db = (db, Raise post_not_found).
Proof.
  intros Hp. unfold get_post_by_id. run_handler.
  unfold stored_post in Hp. now rewrite Hp.
Qed.

(* ===================================================================== *)
(** ** Creating and reading a post *)
(* ===================================================================== *)

Lemma create_post_fresh post_id created updated post_data u db :
  stored_post db post_id = None ->
  create_post post_id created updated post_data u db =
  (mkDatabase (users db)
     (posts db ++
        [Post.mk post_id (PostCreate.title post_data) (PostCreate.content post_data)
                 (PostCreate.excerpt post_data) (PostCreate.category post_data)
                 (User.id u) created updated])
     (comments db),
   Ok (post_response
         (Post.mk post_id (PostCreate.title post_data) (PostCreate.content post_data)
                  (PostCreate.excerpt post_data) (PostCreate.category post_data)
                  (User.id u) created updated)
         (User.name u))).
Proof.
  intros E. unfold create_post, add_post, bind, ret. cbn.
  rewrite existsb_first. unfold stored_post in E. now rewrite E.
Qed.

(** X1. A post created under an id that no stored post has, by the user
    row the guard resolved, can be read back: [get_post_by_id] on the new
    database answers with the very view that [create_post] answered with.
    That view has the request's title, content, excerpt and category, the
    caller as author, and the insert's two clock readings as [created_at]
    and [updated_at].  Lookups
    of other post ids, the users and the comments are as before. *)
Theorem create_post_then_get post_id created updated post_data u db :
  stored_post db post_id = None ->
  stored_user db (User.id u) = Some u ->
  exists db' view,
    create_post post_id created updated post_data u db = (db', Ok view) /\
    get_post_by_id post_id db' = (db', Ok view) /\
    post_of_response view =
      Post.mk post_id (PostCreate.title post_data) (PostCreate.content post_data)
              (PostCreate.excerpt post_data) (PostCreate.category post_data)
              (User.id u) created updated /\
    PostResponse.author_name view = User.name u /\
    users db' = users db /\
    comments db' = comments db /\
    (forall other, other <> post_id -> stored_post db' other = stored_post db other).
Proof.
  intros Hfresh Hu. eexists _, _.
  split; [now apply create_post_fresh|].
  split; [|split; [reflexivity|split; [reflexivity|split; [reflexivity|split;
                                                            [reflexivity|]]]]].
  - apply get_post_by_id_found with (post := Post.mk post_id _ _ _ _ _ _ _);
      [|exact Hu].
    unfold stored_post. cbn. rewrite first_snoc_none by exact Hfresh.
    cbn. now rewrite String.eqb_refl.
  - intros other Hother. unfold stored_post. cbn.
    apply first_snoc_other. cbn. now apply String.eqb_neq.
Qed.

(** Bob creates the post "p3" at time 60 and reads it back. *)
Lemma create_post_then_get_witness :
  exists db' view,
    create_post "p3" 60 61 (PostCreate.mk "T" "C" None None) demo_bob demo_db
      = (db', Ok view) /\
    get_post_by_id "p3" db' = (db', Ok view) /\
    PostResponse.author_name view = "Bob".
Proof.
  destruct (create_post_then_get "p3" 60 61 (PostCreate.mk "T" "C" None None)
              demo_bob demo_db eq_refl eq_refl)
    as (db' & view & Hcreate & Hget & _ & Hname & _).
  exists db', view. split; [exact Hcreate|]. split; [exact Hget | exact Hname].
Defined.

(* ===================================================================== *)
(** ** Primary keys and author references in reachable databases *)
(* ===================================================================== *)

Lemma existsb_key_false {A} (key : A -> string) k rows :
  existsb (fun r => String.eqb (key r) k) rows = false -> ~ In k (map key rows).
Proof.
  intros E Hin. apply in_map_iff in Hin as (r & Hk & Hr).
  assert (existsb (fun r => String.eqb (key r) k) rows = true) as E'.
  { apply existsb_exists. exists r. split; [exact Hr|].
    rewrite Hk. apply String.eqb_refl. }
  congruence.
Qed.

Lemma NoDup_map_filter {A B} (f : A -> B) (keep : A -> bool) rows :
  NoDup (map f rows) -> NoDup (map f (filter keep rows)).
Proof.
  induction rows as [|r rows IH]; cbn; [trivial|].
  intros Hnd. inversion Hnd as [|? ? Hr Hrest]; subst.
  destruct (keep r); cbn; [|now apply IH].
  constructor; [|now apply IH].
  intros Hin. apply Hr. apply in_map_iff in Hin as (x & Hx & Hin).
  apply filter_In in Hin as [Hin _]. rewrite <- Hx. now apply in_map.
Qed.

Ltac keep_keys :=
  first
    [ assumption
    | rewrite map_app; cbn [map]; apply NoDup_snoc;
      [assumption | apply existsb_key_false; cbn; assumption]
    | rewrite update_where_keys;
      [ assumption
      | first [apply assign_user_fields_id | apply assign_post_fields_id
              | apply assign_comment_fields_id] ]
    | apply NoDup_map_filter; assumption ].

Lemma serve_primary_keys_unique `{Primitives} settings r db :
  primary_keys_unique db -> primary_keys_unique (serve settings r db).
Proof.
  unfold primary_keys_unique. intros (Hu & Hp & Hc).
  destruct r; after_serve; handler_cases; cbn [users posts comments];
    try (apply orb_false_iff in Heqb as [? ?]);
    (split; [|split]); unfold delete_comment_rows; keep_keys.
Qed.

Lemma reachable_primary_keys_unique `{Primitives} settings db :
  reachable settings db -> primary_keys_unique db.
Proof.
  induction 1 as [|db r Hreach IH Hauth].
  - repeat split; constructor.
  - now apply serve_primary_keys_unique.
Qed.

(** With unique primary keys, the lookup by a row's id finds that row. *)
Lemma first_of_unique {A} (key : A -> string) rows x :
  NoDup (map key rows) -> In x rows ->
  first (fun r => String.eqb (key r) (key x)) rows = Some x.
Proof.
  intros Hnd Hin.
  destruct (first_exists (fun r => String.eqb (key r) (key x)) rows x Hin
              (String.eqb_refl _)) as [y Hy].
  rewrite Hy. f_equal. apply first_In in Hy as [Hy Hk].
  apply String.eqb_eq in Hk.
  now apply (NoDup_map_injective key rows).
Qed.

(** Where the author of a comment of the next database comes from. *)
Lemma serve_comment_author_origin `{Primitives} settings r db c :
  authenticated r db ->
  In c (comments (serve settings r db)) ->
  (exists c0, In c0 (comments db) /\ Comment.author_id c = Comment.author_id c0) \/
  (exists u, In u (users db) /\ User.id u = Comment.author_id c).
Proof.
  intros Hauth Hin. destruct r; after_serve_in Hin; handler_cases; cbn in Hin;
    try (left; exists c; split; [assumption | reflexivity]).
  - apply In_delete_comment_rows in Hin as [Hin _]. left. exists c. now split.
  - apply in_app_or in Hin as [Hin | [<- | []]].
    + left. exists c. now split.
    + right. exists current_user. split; [exact Hauth | reflexivity].
  - apply In_update_where in Hin as (c0 & Hc0 & [-> | ->]).
    + left. exists c0. now split.
    + left. exists c0. now split.
  - apply In_delete_comment_rows in Hin as [Hin _]. left. exists c. now split.
Qed.

Lemma reachable_comments_have_authors `{Primitives} settings db :
  reachable settings db -> comments_have_authors db.
Proof.
  induction 1 as [|db r Hreach IH Hauth].
  - intros c [].
  - intros c Hin.
    assert (exists u, In u (users db) /\ User.id u = Comment.author_id c)
      as (u & Hu & Hid).
    { destruct (serve_comment_author_origin settings r db c Hauth Hin)
        as [(c0 & Hc0 & Heq) | Hnew]; [|exact Hnew].
      destruct (IH c0 Hc0) as (u & Hu & Hid). exists u. split; congruence. }
    destruct (serve_keeps_user_ids settings r db u Hu) as (u' & Hu' & Hid').
    exists u'. split; congruence.
Qed.

(** X2. In every reachable database the ids of each table are pairwise
    distinct, so the lookup by id that the handlers start with finds, for
    every stored user, post and comment, that row itself. *)
Theorem stored_rows_found_by_id `{Primitives} settings db :
  reachable settings db ->
  primary_keys_unique db /\
  (forall u, In u (users db) -> stored_user db (User.id u) = Some u) /\
  (forall p, In p (posts db) -> stored_post db (Post.id p) = Some p) /\
  (forall c, In c (comments db) -> stored_comment db (Comment.id c) = Some c).
Proof.
  intros Hreach.
  pose proof (reachable_primary_keys_unique settings db Hreach) as Hpk.
  split; [exact Hpk|]. destruct Hpk as (Hu & Hp & Hc). repeat split.
  - intros u. now apply (first_of_unique User.id).
  - intros p. now apply (first_of_unique Post.id).
  - intros c. now apply (first_of_unique Comment.id).
Qed.

Lemma stored_rows_found_by_id_witness :
  primary_keys_unique demo_db /\ stored_post demo_db "p2" <> None.
Proof.
  destruct (@stored_rows_found_by_id toy_primitives demo_settings demo_db
              reachable_demo) as (Hpk & _ & Hp & _).
  split; [exact Hpk|].
  specialize (Hp (Post.mk "p2" "Again" "Text" None (Some "misc") "u2" 40 41)
                 (or_intror (or_introl eq_refl))).
  cbn [Post.id] in Hp. rewrite Hp. discriminate.
Defined.

Lemma stored_author_of_post db post :
  posts_have_authors db -> In post (posts db) ->
  exists a, stored_user db (Post.author_id post) = Some a.
Proof.
  intros Hfk Hin. destruct (Hfk post Hin) as (u & Hu & Hid).
  destruct (load_author_stored db u Hu) as (a & Ha & _).
  exists a. unfold stored_user. now rewrite <- Hid.
Qed.

(** X3. In a reachable database [get_post_by_id] has two answers only: 404
    "Post not found" when no post has the id, and otherwise the view of
    the stored post with the name that the author's row holds now.  It
    never fails on a stored post, and it leaves the database as it is. *)
Theorem get_post_by_id_reachable `{Primitives} settings db post_id :
  reachable settings db ->
  match stored_post db post_id with
  | None => get_post_by_id post_id db = (db, Raise post_not_found)
  | Some post =>
      exists a, stored_user db (Post.author_id post) = Some a /\
                get_post_by_id post_id db
                = (db, Ok (post_response post (User.name a)))
  end.
Proof.
  intros Hreach. destruct (stored_post db post_id) as [post|] eqn:E.
  - destruct (stored_author_of_post db post) as [a Ha].
    + now apply reachable_posts_have_authors with (settings := settings).
    + exact (proj1 (first_In _ _ _ E)).
    + exists a. split; [exact Ha|]. now apply get_post_by_id_found.
  - now apply get_post_by_id_missing.
Qed.

Lemma get_post_by_id_reachable_witness :
  get_post_by_id "p9" demo_db = (demo_db, Raise post_not_found).
Proof.
  exact (@get_post_by_id_reachable toy_primitives demo_settings demo_db "p9"
           reachable_demo).
Defined.

(* ===================================================================== *)
(** ** The comments of a post *)
(* ===================================================================== *)

Lemma comment_of_response_view comment author :
  comment_of_response (comment_response comment author) = comment.
Proof. now destruct comment. Qed.

Lemma newest_first_comment_views rs :
  newest_first Comment.created_at (map comment_of_response rs) ->
  newest_first CommentResponse.created_at rs.
Proof.
  unfold newest_first. induction rs as [|r rs IH]; cbn; intros Hs.
  - constructor.
  - inversion Hs as [|? ? Hrest Hall]; subst.
    constructor; [now apply IH|].
    rewrite Forall_map in Hall. exact Hall.
Qed.

Lemma comment_views_of_list db l :
  (forall c, In c l ->
             exists u, In u (users db) /\ User.id u = Comment.author_id c) ->
  exists rs,
    map_M (fun comment =>
             author <- load_author (Comment.author_id comment) ;;
             ret (comment_response comment author)) l db = (db, Ok rs) /\
    map comment_of_response rs = l /\
    Forall (fun r =>
              exists a, stored_user db (CommentResponse.author_id r) = Some a /\
                        CommentResponse.author_name r = User.name a /\
                        CommentResponse.author_profile_picture r
                        = User.profile_picture a) rs.
Proof.
  induction l as [|c l IH]; intros Hfk.
  - exists []. now repeat split.
  - destruct IH as (rs & Hrun & Hmap & Hall).
    { intros q Hq. apply Hfk. now right. }
    destruct (Hfk c (or_introl eq_refl)) as (u & Hu & Hid).
    destruct (load_author_stored db u Hu) as (a & Ha & Hload).
    exists (comment_response c a :: rs).
    split; [|split].
    + cbn [map_M]. unfold bind at 1. unfold bind at 1.
      rewrite <- Hid, Hload. cbn [ret]. unfold bind at 1.
      rewrite Hrun. reflexivity.
    + cbn [map]. now rewrite comment_of_response_view, Hmap.
    + constructor; [|exact Hall].
      exists a. cbn. unfold stored_user. rewrite <- Hid. now repeat split.
Qed.

Lemma get_comments_by_post_run db post_id :
  get_comments_by_post post_id db =
  match stored_post db post_id with
  | None => (db, Raise post_not_found)
  | Some _ =>
      map_M (fun comment =>
               author <- load_author (Comment.author_id comment) ;;
               ret (comment_response comment author))
            (order_by_desc Comment.created_at
               (filter (fun c => String.eqb (Comment.post_id c) post_id)
                       (comments db))) db
  end.
Proof.
  unfold get_comments_by_post, stored_post. unfold bind at 1.
  unfold query_post_by_id. now destruct (first _ (posts db)).
Qed.

(** X4. In a reachable database [get_comments_by_post] answers 404 "Post
    not found" when no post has the id, and otherwise with one view per
    stored comment whose [post_id] is the id, ordered by creation time,
    newest first; each view carries the name and the profile picture that
    the row of the comment's author holds now. *)
Theorem get_comments_by_post_reachable `{Primitives} settings db post_id :
  reachable settings db ->
  match stored_post db post_id with
  | None => get_comments_by_post post_id db = (db, Raise post_not_found)
  | Some _ =>
      exists rs,
        get_comments_by_post post_id db = (db, Ok rs) /\
        Permutation (map comment_of_response rs)
          (filter (fun c => String.eqb (Comment.post_id c) post_id) (comments db)) /\
        newest_first CommentResponse.created_at rs /\
        Forall (fun r =>
                  exists a, stored_user db (CommentResponse.author_id r) = Some a /\
                            CommentResponse.author_name r = User.name a /\
                            CommentResponse.author_profile_picture r
                            = User.profile_picture a) rs
  end.
Proof.
  intros Hreach. rewrite get_comments_by_post_run.
  destruct (stored_post db post_id) as [post|]; [|reflexivity].
  destruct (comment_views_of_list db
              (order_by_desc Comment.created_at
                 (filter (fun c => String.eqb (Comment.post_id c) post_id)
                         (comments db))))
    as (rs & Hrun & Hmap & Hall).
  { intros c Hc.
    apply (Permutation_in _ (order_by_desc_perm _ _)) in Hc.
    apply filter_In in Hc as [Hc _].
    now apply (reachable_comments_have_authors settings db Hreach). }
  exists rs. split; [exact Hrun|]. split; [|split; [|exact Hall]].
  - rewrite Hmap. apply order_by_desc_perm.
  - apply newest_first_comment_views. rewrite Hmap. apply order_by_desc_sorted.
Qed.

(** In the small run the comments of "p1" are Bob's one comment, shown
    with his name. *)
Lemma get_comments_by_post_reachable_witness :
  exists rs,
    get_comments_by_post "p1" demo_db = (demo_db, Ok rs) /\
    newest_first CommentResponse.created_at rs.
Proof.
  destruct (@get_comments_by_post_reachable toy_primitives demo_settings demo_db
              "p1" reachable_demo) as (rs & Hrun & _ & Hsorted & _).
  exists rs. split; [exact Hrun | exact Hsorted].
Defined.

Example get_comments_by_post_demo :
  exists rs, get_comments_by_post "p1" demo_db = (demo_db, Ok rs) /\
             map CommentResponse.author_name rs = ["Bob"] /\
             map CommentResponse.content rs = ["Nice"].
Proof. eexists. split; [vm_compute; reflexivity|]. split; reflexivity. Qed.

(* ===================================================================== *)
(** ** Lookups after a write *)
(* ===================================================================== *)

(** The lookup by key after an UPDATE by key: the row found is the row
    that was found before, updated when the two keys are the same. *)
Lemma first_update_where_key {A} (key : A -> string) pk i (set : A -> A) rows :
  (forall r, key (set r) = key r) ->
  first (fun r => String.eqb (key r) i)
        (update_where (fun r => String.eqb (key r) pk) set rows)
  = option_map (fun x => if String.eqb i pk then set x else x)
               (first (fun r => String.eqb (key r) i) rows).
Proof.
  intros Hkey. unfold first, update_where.
  induction rows as [|r rows IH]; cbn; [reflexivity|].
  destruct (String.eqb_spec (key r) pk) as [Hpk|Hpk].
  - rewrite Hkey. destruct (String.eqb_spec (key r) i) as [Hi|Hi]; [|exact IH].
    cbn. rewrite <- Hi, Hpk. now rewrite String.eqb_refl.
  - destruct (String.eqb_spec (key r) i) as [Hi|Hi]; [|exact IH].
    cbn. rewrite <- Hi. apply String.eqb_neq in Hpk. now rewrite Hpk.
Qed.

Lemma assign_user_fields_columns user_data u :
  assign_user_fields user_data u =
  User.mk (User.id u) (User.email u) (User.password u)
          (assigned (UserUpdate.name user_data) (User.name u))
          (assigned_opt (UserUpdate.profile_picture user_data)
                        (User.profile_picture u))
          (User.created_at u).
Proof. destruct user_data as [[n|] [p|]], u; reflexivity. Qed.

Lemma stored_user_after_profile_update user_data u db i :
  stored_user (db_after (update_user_profile user_data u) db) i
  = option_map (fun x => if String.eqb i (User.id u)
                         then assign_user_fields user_data x else x)
               (stored_user db i).
Proof.
  rewrite db_after_update_user_profile. unfold stored_user. cbn [users].
  apply (first_update_where_key User.id). apply assign_user_fields_id.
Qed.

(** X5. When the user row that the guard resolved updates its profile,
    name and profile picture take the request's value where it gives one
    and keep the old value where it gives none (so a picture that is set
    cannot be cleared); id, email, password hash and creation time are
    unchanged; the answer is the view of the updated row.  The rows of the
    other users, the posts and the comments are untouched. *)
Theorem update_user_profile_frame user_data u db :
  stored_user db (User.id u) = Some u ->
  exists db' u',
    update_user_profile user_data u db = (db', Ok (user_response u')) /\
    stored_user db' (User.id u) = Some u' /\
    User.name u' = assigned (UserUpdate.name user_data) (User.name u) /\
    User.profile_picture u' =
      assigned_opt (UserUpdate.profile_picture user_data) (User.profile_picture u) /\
    (User.profile_picture u <> None -> User.profile_picture u' <> None) /\
    same_account u u' /\
    posts db' = posts db /\
    comments db' = comments db /\
    (forall other, other <> User.id u -> stored_user db' other = stored_user db other).
Proof.
  intros Hu.
  exists (db_after (update_user_profile user_data u) db),
    (assign_user_fields user_data u).
  split; [reflexivity|]. split.
  { rewrite stored_user_after_profile_update, Hu. cbn.
    now rewrite String.eqb_refl. }
  rewrite assign_user_fields_columns. cbn.
  split; [reflexivity|]. split; [reflexivity|]. split.
  { destruct (UserUpdate.profile_picture user_data); [discriminate | trivial]. }
  split; [now repeat split|]. split; [reflexivity|]. split; [reflexivity|].
  intros other Hother.
  change (stored_user (db_after (update_user_profile user_data u) db) other
          = stored_user db other).
  rewrite stored_user_after_profile_update.
  apply String.eqb_neq in Hother. rewrite Hother.
  now destruct (stored_user db other).
Qed.

(** Bob sets a picture and keeps his name. *)
Lemma update_user_profile_frame_witness :
  exists db' u',
    update_user_profile (UserUpdate.mk None (Some "b.png")) demo_bob demo_db
      = (db', Ok (user_response u')) /\
    User.name u' = "Bob" /\ User.profile_picture u' = Some "b.png".
Proof.
  destruct (update_user_profile_frame (UserUpdate.mk None (Some "b.png"))
              demo_bob demo_db eq_refl)
    as (db' & u' & Hrun & _ & Hname & Hpic & _).
  exists db', u'. split; [exact Hrun|]. split; [exact Hname | exact Hpic].
Defined.

(** X6. The author name of a post view is read from the users table when
    the view is built: after the author of a stored post has updated the
    profile, [get_post_by_id] shows the post, unchanged, under the name the
    update left (the new name if the request gave one). *)
Theorem renamed_author_in_post_view user_data u db post_id post :
  stored_user db (User.id u) = Some u ->
  stored_post db post_id = Some post ->
  Post.author_id post = User.id u ->
  let db' := db_after (update_user_profile user_data u) db in
  get_post_by_id post_id db'
  = (db', Ok (post_response post
                (assigned (UserUpdate.name user_data) (User.name u)))).
Proof.
  intros Hu Hp Hauthor db'.
  replace (assigned (UserUpdate.name user_data) (User.name u))
    with (User.name (assign_user_fields user_data u))
    by now rewrite assign_user_fields_columns.
  apply get_post_by_id_found.
  - exact Hp.
  - unfold db'. rewrite stored_user_after_profile_update, Hauthor, Hu. cbn.
    now rewrite String.eqb_refl.
Qed.

(** Alice renames herself: her post "p1" is shown under the new name. *)
Lemma renamed_author_in_post_view_witness :
  exists db' view,
    get_post_by_id "p1"
      (db_after (update_user_profile (UserUpdate.mk (Some "Alicia") None) demo_alice')
                demo_db) = (db', Ok view) /\
    PostResponse.author_name view = "Alicia".
Proof.
  eexists _, _. split.
  - exact (renamed_author_in_post_view (UserUpdate.mk (Some "Alicia") None)
             demo_alice' demo_db "p1" demo_post eq_refl eq_refl eq_refl).
  - reflexivity.
Defined.

(* ===================================================================== *)
(** ** Deleting *)
(* ===================================================================== *)

Lemma stored_post_after_delete post db i :
  first (fun p => String.eqb (Post.id p) i)
        (filter (fun r => negb (String.eqb (Post.id r) (Post.id post))) (posts db))
  = if String.eqb i (Post.id post) then None else stored_post db i.
Proof.
  rewrite (first_filter_key _ _ (negb (String.eqb i (Post.id post)))).
  - now destruct (String.eqb i (Post.id post)).
  - intros r Hr. apply String.eqb_eq in Hr. now rewrite Hr.
Qed.

Lemma stored_comment_after_delete pks db i :
  first (fun c => String.eqb (Comment.id c) i) (delete_comment_rows pks (comments db))
  = if existsb (String.eqb i) pks then None else stored_comment db i.
Proof.
  unfold delete_comment_rows.
  rewrite (first_filter_key _ _ (negb (existsb (String.eqb i) pks))).
  - now destruct (existsb (String.eqb i) pks).
  - intros r Hr. apply String.eqb_eq in Hr. now rewrite Hr.
Qed.

(** With unique comment ids, the cascade removes the comments of the post
    and no other. *)
Lemma cascade_spares_other_posts post db c :
  NoDup (map Comment.id (comments db)) ->
  In c (comments db) -> Comment.post_id c <> Post.id post ->
  ~ In (Comment.id c) (map Comment.id (post_comments post db)).
Proof.
  intros Hnd Hc Hne Hin. apply in_map_iff in Hin as (c' & Hid & Hc').
  unfold post_comments in Hc'. apply filter_In in Hc' as [Hc' Hpost].
  apply String.eqb_eq in Hpost.
  assert (c' = c) by now apply (NoDup_map_injective Comment.id (comments db)).
  subst c'. contradiction.
Qed.

(** X7. When the author deletes a stored post, in a database with unique
    comment ids: the handler answers "Post successfully deleted"; the post
    can no longer be read (404) nor deleted again (404); exactly the
    comments with another [post_id] remain; users and the lookups of the
    other posts are as before. *)
Theorem delete_post_effects post_id u db post :
  stored_post db post_id = Some post ->
  Post.author_id post = User.id u ->
  NoDup (map Comment.id (comments db)) ->
  exists db',
    delete_post post_id u db
      = (db', Ok (MessageResponse.mk "Post successfully deleted")) /\
    get_post_by_id post_id db' = (db', Raise post_not_found) /\
    rejects HTTP_404_NOT_FOUND (delete_post post_id u) db' /\
    (forall c, In c (comments db') <->
               In c (comments db) /\ Comment.post_id c <> post_id) /\
    users db' = users db /\
    (forall other, other <> post_id -> stored_post db' other = stored_post db other).
Proof.
  intros Hp Hauthor Hnd.
  pose proof (stored_post_id _ _ _ Hp) as Hid.
  eexists. split; [exact (delete_post_own post_id u db post Hp Hauthor)|].
  cbn [db_delete_post fst].
  assert (forall i,
             stored_post
               (mkDatabase (users db)
                  (filter (fun r => negb (String.eqb (Post.id r) (Post.id post)))
                          (posts db))
                  (delete_comment_rows (map Comment.id (post_comments post db))
                                       (comments db))) i
             = if String.eqb i post_id then None else stored_post db i) as Hlookup.
  { intros i. unfold stored_post at 1. cbn [posts].
    rewrite stored_post_after_delete. now rewrite Hid. }
  assert (stored_post
            (mkDatabase (users db)
               (filter (fun r => negb (String.eqb (Post.id r) (Post.id post)))
                       (posts db))
               (delete_comment_rows (map Comment.id (post_comments post db))
                                    (comments db))) post_id = None) as Hgone.
  { rewrite Hlookup. now rewrite String.eqb_refl. }
  split; [now apply get_post_by_id_missing|].
  split; [now apply delete_post_rejects_missing|].
  split; [|split; [reflexivity|]].
  - intros c. cbn [comments]. rewrite In_delete_comment_rows. split.
    + intros [Hc Hpk]. split; [exact Hc|]. intros Hpost. apply Hpk.
      apply in_map. unfold post_comments. apply filter_In. split; [exact Hc|].
      apply String.eqb_eq. congruence.
    + intros [Hc Hpost]. split; [exact Hc|].
      apply cascade_spares_other_posts; [exact Hnd | exact Hc | congruence].
  - intros other Hother. rewrite Hlookup.
    apply String.eqb_neq in Hother. now rewrite Hother.
Qed.

(** Bob deletes his post "p2": Alice's post and the comment on it stay. *)
Lemma delete_post_effects_witness :
  exists db',
    delete_post "p2" demo_bob demo_db
      = (db', Ok (MessageResponse.mk "Post successfully deleted")) /\
    get_post_by_id "p2" db' = (db', Raise post_not_found) /\
    stored_post db' "p1" = Some demo_post /\
    In demo_comment (comments db').
Proof.
  destruct (delete_post_effects "p2" demo_bob demo_db
              (Post.mk "p2" "Again" "Text" None (Some "misc") "u2" 40 41)
              eq_refl eq_refl
              (proj2 (proj2 (@reachable_primary_keys_unique toy_primitives
                               demo_settings demo_db reachable_demo))))
    as (db' & Hrun & Hget & _ & Hcomments & _ & Hother).
  exists db'. split; [exact Hrun|]. split; [exact Hget|]. split.
  - rewrite Hother; [reflexivity | discriminate].
  - apply Hcomments. split; [left; reflexivity | discriminate].
Defined.

(** X8. When the author deletes a stored comment: the handler answers
    "Comment successfully deleted"; the comment is gone, so a second
    deletion is answered 404; exactly the comments with another id
    remain; users and posts are as before. *)
Theorem delete_comment_effects comment_id u db comment :
  stored_comment db comment_id = Some comment ->
  Comment.author_id comment = User.id u ->
  exists db',
    delete_comment comment_id u db
      = (db', Ok (MessageResponse.mk "Comment successfully deleted")) /\
    stored_comment db' comment_id = None /\
    rejects HTTP_404_NOT_FOUND (delete_comment comment_id u) db' /\
    (forall c, In c (comments db') <->
               In c (comments db) /\ Comment.id c <> comment_id) /\
    (forall other, other <> comment_id ->
                   stored_comment db' other = stored_comment db other) /\
    users db' = users db /\
    posts db' = posts db.
Proof.
  intros Hc Hauthor.
  pose proof (stored_comment_id _ _ _ Hc) as Hid.
  eexists. split; [exact (delete_comment_own comment_id u db comment Hc Hauthor)|].
  cbn [db_delete_comment fst].
  assert (forall i,
             stored_comment
               (mkDatabase (users db) (posts db)
                  (delete_comment_rows [Comment.id comment] (comments db))) i
             = if String.eqb i comment_id then None else stored_comment db i)
    as Hlookup.
  { intros i. unfold stored_comment at 1. cbn [comments].
    rewrite stored_comment_after_delete. cbn [existsb]. rewrite Hid.
    now rewrite orb_false_r. }
  assert (stored_comment
            (mkDatabase (users db) (posts db)
               (delete_comment_rows [Comment.id comment] (comments db)))
            comment_id = None) as Hgone.
  { rewrite Hlookup. now rewrite String.eqb_refl. }
  split; [exact Hgone|].
  split; [now apply delete_comment_rejects_missing|].
  split; [|split; [|split; reflexivity]].
  - intros c. cbn [comments]. rewrite In_delete_comment_rows, Hid. cbn [In].
    split; intros [Hin Hne]; (split; [exact Hin|]).
    + intros Heq. apply Hne. left. now symmetry.
    + intros [Heq | []]. apply Hne. now symmetry.
  - intros other Hother. rewrite Hlookup.
    apply String.eqb_neq in Hother. now rewrite Hother.
Qed.

(** Bob deletes his comment "c1". *)
Lemma delete_comment_effects_witness :
  exists db',
    delete_comment "c1" demo_bob demo_db
      = (db', Ok (MessageResponse.mk "Comment successfully deleted")) /\
    stored_comment db' "c1" = None /\
    posts db' = posts demo_db.
Proof.
  destruct (delete_comment_effects "c1" demo_bob demo_db demo_comment
              eq_refl eq_refl)
    as (db' & Hrun & Hgone & _ & _ & _ & _ & Hposts).
  exists db'. split; [exact Hrun|]. split; [exact Hgone | exact Hposts].
Defined.

(* ===================================================================== *)
(** ** Writing comments *)
(* ===================================================================== *)

Lemma stored_comment_after_update pk comment_data now db i :
  first (fun c => String.eqb (Comment.id c) i)
        (update_where (fun r => String.eqb (Comment.id r) pk)
                      (assign_comment_fields comment_data now) (comments db))
  = option_map (fun x => if String.eqb i pk
                         then assign_comment_fields comment_data now x else x)
               (stored_comment db i).
Proof.
  apply (first_update_where_key Comment.id). apply assign_comment_fields_id.
Qed.

(** X9. When the author, as the guard resolved it, updates a stored
    comment: the stored row takes the request's content and the clock
    reading as [updated_at]; its id, post, author and creation time are
    unchanged; the answer is the view of the updated row with the caller's
    name and picture.  Comments with other ids, posts and users are
    untouched. *)
Theorem update_comment_frame now comment_id comment_data u db comment :
  stored_comment db comment_id = Some comment ->
  Comment.author_id comment = User.id u ->
  stored_user db (User.id u) = Some u ->
  exists db' comment',
    update_comment now comment_id comment_data u db
      = (db', Ok (comment_response comment' u)) /\
    stored_comment db' comment_id = Some comment' /\
    Comment.content comment' = CommentUpdate.content comment_data /\
    Comment.updated_at comment' = now /\
    same_comment_origin comment comment' /\
    users db' = users db /\
    posts db' = posts db /\
    (forall other, other <> comment_id ->
                   stored_comment db' other = stored_comment db other).
Proof.
  intros Hc Hauthor Hu.
  pose proof (stored_comment_id _ _ _ Hc) as Hid.
  destruct (update_comment_own now comment_id comment_data u db comment Hc Hauthor)
    as (a & Ha & Hrun).
  { exact (proj1 (first_In _ _ _ Hu)). }
  assert (a = u) as -> by (unfold stored_user in Hu; congruence).
  eexists _, _. split; [exact Hrun|].
  split; [|split; [reflexivity|split; [reflexivity|split; [now repeat split|]]]].
  - unfold stored_comment at 1. cbn [comments].
    rewrite stored_comment_after_update, Hc, Hid. cbn.
    now rewrite String.eqb_refl.
  - split; [reflexivity|]. split; [reflexivity|].
    intros other Hother. unfold stored_comment at 1. cbn [comments].
    rewrite stored_comment_after_update, Hid.
    apply String.eqb_neq in Hother. rewrite Hother.
    now destruct (stored_comment db other).
Qed.

(** Bob rewrites his comment at time 70. *)
Lemma update_comment_frame_witness :
  exists db' comment',
    update_comment 70 "c1" (CommentUpdate.mk "Very nice") demo_bob demo_db
      = (db', Ok (comment_response comment' demo_bob)) /\
    Comment.content comment' = "Very nice" /\
    Comment.updated_at comment' = 70.
Proof.
  destruct (update_comment_frame 70 "c1" (CommentUpdate.mk "Very nice") demo_bob
              demo_db demo_comment eq_refl eq_refl eq_refl)
    as (db' & comment' & Hrun & _ & Hcontent & Hupdated & _).
  exists db', comment'. split; [exact Hrun|]. split; assumption.
Defined.

Lemma create_comment_fresh comment_id created updated post_id comment_data u db post :
  stored_post db post_id = Some post ->
  stored_comment db comment_id = None ->
  create_comment comment_id created updated post_id comment_data u db =
  (mkDatabase (users db) (posts db)
     (comments db ++
        [Comment.mk comment_id (CommentCreate.content comment_data) post_id
                    (User.id u) created updated]),
   Ok (comment_response
         (Comment.mk comment_id (CommentCreate.content comment_data) post_id
                     (User.id u) created updated) u)).
Proof.
  intros Hp Hc. unfold create_comment, add_comment. run_handler.
  unfold stored_post in Hp. rewrite Hp. cbn.
  rewrite existsb_first. unfold stored_comment in Hc. now rewrite Hc.
Qed.

Lemma comment_view_eq r comment a :
  comment_of_response r = comment ->
  CommentResponse.author_name r = User.name a ->
  CommentResponse.author_profile_picture r = User.profile_picture a ->
  r = comment_response comment a.
Proof.
  destruct r. cbn. intros <- -> ->. reflexivity.
Qed.

(** X10. A comment created on a stored post under an id that no stored
    comment has, by the user row the guard resolved, in a database where
    every comment has its author: the row is stored with the request's
    content, the post id, the caller as author and the insert's two clock
    readings as [created_at] and [updated_at]; the answer carries the
    caller's name and profile
    picture; and the listing of the post's comments on the new database
    contains that same view.  Users and posts are untouched. *)
Theorem create_comment_then_list comment_id created updated post_id comment_data
  u db post :
  stored_post db post_id = Some post ->
  stored_comment db comment_id = None ->
  stored_user db (User.id u) = Some u ->
  comments_have_authors db ->
  let new_comment :=
    Comment.mk comment_id (CommentCreate.content comment_data) post_id
               (User.id u) created updated in
  exists db' views,
    create_comment comment_id created updated post_id comment_data u db
      = (db', Ok (comment_response new_comment u)) /\
    stored_comment db' comment_id = Some new_comment /\
    get_comments_by_post post_id db' = (db', Ok views) /\
    In (comment_response new_comment u) views /\
    users db' = users db /\
    posts db' = posts db.
Proof.
  intros Hp Hc Hu Hfk new_comment.
  set (db' := mkDatabase (users db) (posts db) (comments db ++ [new_comment])).
  assert (forall c, In c (comments db') ->
                    exists a, In a (users db') /\ User.id a = Comment.author_id c)
    as Hfk'.
  { intros c Hin. cbn in Hin. apply in_app_or in Hin as [Hin | [<- | []]].
    - now apply Hfk.
    - exists u. split; [exact (proj1 (first_In _ _ _ Hu)) | reflexivity]. }
  destruct (comment_views_of_list db'
              (order_by_desc Comment.created_at
                 (filter (fun c => String.eqb (Comment.post_id c) post_id)
                         (comments db'))))
    as (views & Hrun & Hmap & Hall).
  { intros c Hin. apply (Permutation_in _ (order_by_desc_perm _ _)) in Hin.
    apply filter_In in Hin as [Hin _]. now apply Hfk'. }
  exists db', views.
  split; [now apply create_comment_fresh with (post := post)|].
  split.
  { unfold stored_comment, db'. cbn [comments].
    rewrite first_snoc_none by exact Hc. cbn. now rewrite String.eqb_refl. }
  split.
  { rewrite get_comments_by_post_run.
    change (stored_post db' post_id) with (stored_post db post_id).
    rewrite Hp. exact Hrun. }
  split; [|split; reflexivity].
  assert (In new_comment (map comment_of_response views)) as Hin.
  { rewrite Hmap.
    apply (Permutation_in _ (Permutation_sym (order_by_desc_perm _ _))).
    apply filter_In. split.
    - cbn. apply in_or_app. right. now left.
    - cbn. apply String.eqb_refl. }
  apply in_map_iff in Hin as (r & Hr & Hin).
  rewrite Forall_forall in Hall. destruct (Hall r Hin) as (a & Ha & Hname & Hpic).
  assert (CommentResponse.author_id r = User.id u) as Hid.
  { change (Comment.author_id (comment_of_response r) = User.id u).
    now rewrite Hr. }
  rewrite Hid in Ha. change (stored_user db (User.id u) = Some a) in Ha.
  assert (a = u) as -> by congruence.
  now rewrite <- (comment_view_eq r new_comment u Hr Hname Hpic).
Qed.

(** Alice comments on her own post at time 80; the listing shows it. *)
Lemma create_comment_then_list_witness :
  exists db' views,
    create_comment "c2" 80 81 "p1" (CommentCreate.mk "Thanks") demo_alice' demo_db
      = (db', Ok (comment_response
                    (Comment.mk "c2" "Thanks" "p1" "u1" 80 81) demo_alice')) /\
    get_comments_by_post "p1" db' = (db', Ok views) /\
    In (comment_response (Comment.mk "c2" "Thanks" "p1" "u1" 80 81) demo_alice')
       views.
Proof.
  destruct (create_comment_then_list "c2" 80 81 "p1" (CommentCreate.mk "Thanks")
              demo_alice' demo_db demo_post eq_refl eq_refl eq_refl
              (@reachable_comments_have_authors toy_primitives demo_settings
                 demo_db reachable_demo))
    as (db' & views & Hrun & _ & Hlist & Hin & _).
  exists db', views. split; [exact Hrun|]. split; [exact Hlist | exact Hin].
Defined.

(* ===================================================================== *)
(** ** Logging in *)
(* ===================================================================== *)

Lemma login_run `{Primitives} settings now credentials db :
  login settings now credentials db =
  match first (fun u => String.eqb (User.email u) (UserLogin.email credentials))
              (users db) with
  | None =>
      (db, Raise (mkHTTPException HTTP_401_UNAUTHORIZED "Invalid email or password"))
  | Some user =>
      if verify_password (UserLogin.password credentials) (User.password user)
      then (db, Ok (Token.mk (create_access_token settings now (User.id user))
                             "bearer" (user_response user)))
      else (db, Raise (mkHTTPException HTTP_401_UNAUTHORIZED
                         "Invalid email or password"))
  end.
Proof.
  unfold login. run_handler.
  destruct (first _ (users db)) as [user|]; [|reflexivity].
  now destruct (verify_password _ _).
Qed.

(** X11. [login] never writes.  Whatever makes it fail, an unknown email
    or a password that does not verify, the error is the same 401 "Invalid
    email or password".  A token is only ever issued for a stored user who
    has the email of the request and whose stored hash verifies the
    password of the request; it is issued for that user's id and comes
    with that user's public view. *)
Theorem login_outcomes `{Primitives} settings now credentials db :
  db_after (login settings now credentials) db = db /\
  (forall e, answer (login settings now credentials) db = Raise e ->
             e = mkHTTPException HTTP_401_UNAUTHORIZED "Invalid email or password") /\
  (forall token,
      answer (login settings now credentials) db = Ok token ->
      exists user,
        In user (users db) /\
        User.email user = UserLogin.email credentials /\
        verify_password (UserLogin.password credentials) (User.password user)
        = true /\
        Token.access_token token
        = create_access_token settings now (User.id user) /\
        Token.user token = user_response user).
Proof.
  unfold db_after, answer. rewrite login_run.
  destruct (first _ (users db)) as [user|] eqn:E.
  - destruct (verify_password _ _) eqn:V; cbn.
    + split; [reflexivity|]. split; [discriminate|].
      intros token [= <-]. exists user.
      apply first_In in E as [Hin Hemail]. apply String.eqb_eq in Hemail.
      now repeat split.
    + split; [reflexivity|]. split; [|discriminate]. now intros e [= <-].
  - cbn. split; [reflexivity|]. split; [|discriminate]. now intros e [= <-].
Qed.

(** X12. Registration and login compose, for a credential service in which
    a password verifies against its own hash: after a successful
    registration, a login with the same email and password succeeds on the
    database the registration left, at any time, and answers with the
    public view of the user that was registered. *)
Theorem register_then_login `{Primitives} settings user_id salt created now
  user_data db db' (token : Token.t) now' :
  register settings user_id salt created now user_data db = (db', Ok token) ->
  verify_password (UserCreate.password user_data)
                  (get_password_hash salt (UserCreate.password user_data)) = true ->
  exists token',
    login settings now'
          (UserLogin.mk (UserCreate.email user_data) (UserCreate.password user_data))
          db' = (db', Ok token') /\
    Token.user token' = Token.user token /\
    UserResponse.id (Token.user token') = user_id /\
    Token.access_token token' = create_access_token settings now' user_id.
Proof.
  intros Hrun Hverify.
  assert (first (fun u => String.eqb (User.email u) (UserCreate.email user_data))
                (users db) = None) as Hnew.
  { revert Hrun. unfold register. run_handler.
    now destruct (first _ (users db)). }
  destruct (register_success settings user_id salt created now user_data db db'
              token Hrun)
    as (_ & -> & ->).
  eexists. split.
  { rewrite login_run. cbn [users UserLogin.email UserLogin.password].
    rewrite first_snoc_none by exact Hnew.
    cbn [User.email]. rewrite String.eqb_refl. cbn [User.password].
    rewrite Hverify. reflexivity. }
  now repeat split.
Qed.

(** Eve registers at time 60 and logs in at time 90. *)
Lemma register_then_login_witness :
  exists db' token',
    @login toy_primitives demo_settings 90 (UserLogin.mk "e@x.com" "secret3") db'
      = (db', Ok token') /\
    UserResponse.id (Token.user token') = "u3".
Proof.
  destruct (@register_then_login toy_primitives demo_settings "u3" "s3" 60 61
              (UserCreate.mk "e@x.com" "Eve" "secret3") demo_db _ _ 90
              eq_refl eq_refl)
    as (token' & Hlogin & _ & Hid & _).
  eexists _, token'. split; [exact Hlogin | exact Hid].
Defined.

(* ===================================================================== *)
(** ** What no request rewrites *)
(* ===================================================================== *)

Ltac same_row :=
  unfold stored_user, stored_post, stored_comment in *;
  cbn [users posts comments] in *;
  match goal with
  | H1 : first ?c ?l = Some ?a, H2 : first ?c ?l = Some ?b |- _ =>
      rewrite H1 in H2; injection H2 as <-; now repeat split
  end.

Lemma serve_stored_user `{Primitives} settings r db i u :
  stored_user db i = Some u ->
  exists u', stored_user (serve settings r db) i = Some u' /\ same_account u u'.
Proof.
  intros Hu.
  destruct r;
    try (exists u; split; [|now repeat split]; after_serve; handler_cases;
         exact Hu).
  - exists u. split; [|now repeat split]. after_serve. handler_cases; try exact Hu.
    unfold stored_user. cbn [users]. now apply first_snoc_some.
  - cbn [serve]. rewrite stored_user_after_profile_update, Hu. cbn [option_map].
    eexists. split; [reflexivity|].
    destruct (String.eqb i (User.id current_user)); [|now repeat split].
    rewrite assign_user_fields_columns. now repeat split.
Qed.

Lemma serve_stored_post `{Primitives} settings r db i p p' :
  stored_post db i = Some p ->
  stored_post (serve settings r db) i = Some p' ->
  same_post_origin p p'.
Proof.
  intros Hp Hp'. destruct r; after_serve_in Hp'; handler_cases; try same_row.
  - unfold stored_post in Hp'. cbn [posts] in Hp'.
    rewrite (first_snoc_some _ _ _ _ Hp) in Hp'. injection Hp' as <-.
    now repeat split.
  - unfold stored_post in Hp'. cbn [posts] in Hp'.
    rewrite (first_update_where_key Post.id) in Hp'
      by apply assign_post_fields_id.
    fold (stored_post db i) in Hp'. rewrite Hp in Hp'. cbn [option_map] in Hp'.
    injection Hp' as <-.
    destruct (String.eqb i _); [|now repeat split].
    rewrite assign_post_fields_columns. now repeat split.
  - unfold stored_post in Hp'. cbn [posts] in Hp'.
    rewrite stored_post_after_delete in Hp'.
    destruct (String.eqb i _); [discriminate|].
    rewrite Hp in Hp'. injection Hp' as <-. now repeat split.
Qed.

Lemma serve_stored_comment `{Primitives} settings r db i c c' :
  stored_comment db i = Some c ->
  stored_comment (serve settings r db) i = Some c' ->
  same_comment_origin c c'.
Proof.
  intros Hc Hc'. destruct r; after_serve_in Hc'; handler_cases; try same_row.
  - unfold stored_comment in Hc'. cbn [comments] in Hc'.
    rewrite stored_comment_after_delete in Hc'.
    destruct (existsb _ _); [discriminate|].
    rewrite Hc in Hc'. injection Hc' as <-. now repeat split.
  - unfold stored_comment in Hc'. cbn [comments] in Hc'.
    rewrite (first_snoc_some _ _ _ _ Hc) in Hc'. injection Hc' as <-.
    now repeat split.
  - unfold stored_comment in Hc'. cbn [comments] in Hc'.
    rewrite stored_comment_after_update, Hc in Hc'. cbn [option_map] in Hc'.
    injection Hc' as <-.
    destruct (String.eqb i _); now repeat split.
  - unfold stored_comment in Hc'. cbn [comments] in Hc'.
    rewrite stored_comment_after_delete in Hc'.
    destruct (existsb _ _); [discriminate|].
    rewrite Hc in Hc'. injection Hc' as <-. now repeat split.
Qed.

(** X13. Whatever request is served, by whatever caller: a stored user is
    still stored afterwards, with the same id, email, password hash and
    creation time (no handler deletes an account or touches its
    credentials); a post that is stored before and after has the same id,
    author and creation time; a comment that is stored before and after
    has the same id, post, author and creation time. *)
Theorem origin_columns_immutable `{Primitives} settings r db :
  (forall i u, stored_user db i = Some u ->
     exists u', stored_user (serve settings r db) i = Some u' /\ same_account u u') /\
  (forall i p p',
     stored_post db i = Some p -> stored_post (serve settings r db) i = Some p' ->
     same_post_origin p p') /\
  (forall i c c',
     stored_comment db i = Some c ->
     stored_comment (serve settings r db) i = Some c' ->
     same_comment_origin c c').
Proof.
  split; [|split].
  - intros i u. apply serve_stored_user.
  - intros i p p'. apply serve_stored_post.
  - intros i c c'. apply serve_stored_comment.
Qed.

Lemma first_update_where_gen {A} (cond c : A -> bool) (set : A -> A) rows :
  (forall r, cond (set r) = cond r) ->
  first cond (update_where c set rows)
  = option_map (fun x => if c x then set x else x) (first cond rows).
Proof.
  intros Hset. unfold first, update_where.
  induction rows as [|r rows IH]; cbn; [reflexivity|].
  destruct (c r) eqn:Hc.
  - rewrite Hset. destruct (cond r); [|exact IH]. cbn. now rewrite Hc.
  - destruct (cond r); [|exact IH]. cbn. now rewrite Hc.
Qed.

Lemma same_account_trans u1 u2 u3 :
  same_account u1 u2 -> same_account u2 u3 -> same_account u1 u3.
Proof.
  intros (A1 & A2 & A3 & A4) (B1 & B2 & B3 & B4). repeat split; congruence.
Qed.

Lemma serve_user_by_email `{Primitives} settings r db e u :
  first (fun x => String.eqb (User.email x) e) (users db) = Some u ->
  exists u',
    first (fun x => String.eqb (User.email x) e) (users (serve settings r db))
    = Some u' /\ same_account u u'.
Proof.
  intros Hu.
  destruct r;
    try (exists u; split; [|now repeat split]; after_serve; handler_cases;
         exact Hu).
  - exists u. split; [|now repeat split]. after_serve. handler_cases; try exact Hu.
    cbn [users]. now apply first_snoc_some.
  - after_serve. cbn [users].
    rewrite first_update_where_gen, Hu
      by (intros x; now rewrite assign_user_fields_email).
    cbn [option_map]. eexists. split; [reflexivity|].
    destruct (String.eqb _ _); [|now repeat split].
    rewrite assign_user_fields_columns. now repeat split.
Qed.

Lemma fold_serve_user_by_email `{Primitives} settings rs db e u :
  first (fun x => String.eqb (User.email x) e) (users db) = Some u ->
  exists u',
    first (fun x => String.eqb (User.email x) e)
          (users (fold_left (fun d r => serve settings r d) rs db))
    = Some u' /\ same_account u u'.
Proof.
  revert db u. induction rs as [|r rs IH]; cbn [fold_left]; intros db u Hu.
  - exists u. split; [exact Hu | now repeat split].
  - destruct (serve_user_by_email settings r db e u Hu) as (u1 & Hu1 & Hs1).
    destruct (IH _ u1 Hu1) as (u2 & Hu2 & Hs2).
    exists u2. split; [exact Hu2 | now apply same_account_trans with (u2 := u1)].
Qed.

(** X14. Credentials keep working: if a login succeeds on a database, then
    after any sequence of requests, by any callers, the same email and
    password still log in, at any time, and as the same user id.  (No
    handler changes an email or a password hash, removes a user, or lets a
    second user take the email.) *)
Theorem login_survives_requests `{Primitives} settings now credentials db token
  rs now' :
  login settings now credentials db = (db, Ok token) ->
  let db' := fold_left (fun d r => serve settings r d) rs db in
  exists token',
    login settings now' credentials db' = (db', Ok token') /\
    UserResponse.id (Token.user token') = UserResponse.id (Token.user token) /\
    UserResponse.email (Token.user token') = UserLogin.email credentials.
Proof.
  intros Hlogin db'. rewrite login_run in Hlogin.
  destruct (first _ (users db)) as [user|] eqn:E; [|discriminate].
  destruct (verify_password _ (User.password user)) eqn:V; [|discriminate].
  injection Hlogin as <-.
  destruct (fold_serve_user_by_email settings rs db _ user E)
    as (user' & E' & Hid & Hemail & Hpw & _).
  fold db' in E'. eexists. split.
  { rewrite login_run, E', Hpw, V. reflexivity. }
  cbn. split; [exact Hid|]. rewrite Hemail.
  apply first_In in E as [_ E]. now apply String.eqb_eq.
Qed.

(** Bob can log in on the database of the small run; after Alice renames
    herself and deletes her post, he still can. *)
Lemma login_survives_requests_witness :
  exists db' token',
    @login toy_primitives demo_settings 99 (UserLogin.mk "b@x.com" "secret2") db'
      = (db', Ok token') /\
    UserResponse.id (Token.user token') = "u2".
Proof.
  destruct (@login_survives_requests toy_primitives demo_settings 90
              (UserLogin.mk "b@x.com" "secret2") demo_db _
              [UpdateUserProfile (UserUpdate.mk (Some "Alicia") None) demo_alice';
               DeletePost "p1" demo_alice'] 99 eq_refl)
    as (token' & Hlogin & Hid & _).
  eexists _, token'. split; [exact Hlogin | exact Hid].
Defined.

(** X15. An update can be read back: after the author's update of a stored
    post, [get_post_by_id] on the new database answers with the very view
    that [update_post] answered with. *)
Theorem update_post_then_get now post_id post_data u db post :
  stored_post db post_id = Some post ->
  Post.author_id post = User.id u ->
  In u (users db) ->
  exists db' view,
    update_post now post_id post_data u db = (db', Ok view) /\
    get_post_by_id post_id db' = (db', Ok view).
Proof.
  intros Hp Hauthor Hin.
  destruct (update_post_by_author now post_id post_data u db post Hp Hauthor Hin)
    as (a & db' & Ha & Hrun & Hpost & Husers & _).
  exists db', (post_response (assign_post_fields post_data now post) (User.name a)).
  split; [exact Hrun|].
  apply get_post_by_id_found; [exact Hpost|].
  unfold stored_user in *. now rewrite Husers, assign_post_fields_author, Hauthor.
Qed.

Lemma update_post_then_get_witness :
  exists db' view,
    update_post 60 "p1" (PostUpdate.mk None (Some "Everyone") None None)
                demo_alice' demo_db = (db', Ok view) /\
    get_post_by_id "p1" db' = (db', Ok view).
Proof.
  exact (update_post_then_get 60 "p1" (PostUpdate.mk None (Some "Everyone") None None)
           demo_alice' demo_db demo_post eq_refl eq_refl (or_introl eq_refl)).
Defined.
